(** * ai-data-analyst: a shallow embedding of [ai_data_visualisation_agent.py]

    The development follows the order of the source file: Python string
    primitives, the two regular expressions of [extract_python_code], the
    sandbox call [code_interpret], the prompt builder and the retry ladder of
    [chat_with_llm], and the renderer [display_visualization_results]. *)

From Stdlib Require Import List String Ascii Bool Arith ZArith Lia.
Import ListNotations.

(** [String] is loaded for literals only; [length] is the one of lists. *)
Local Abbreviation length := List.length (only parsing).

(** ** Python strings *)

(** A Python [str] is modelled as the list of its characters; characters are
    the code points below 256. *)
Definition str := list ascii.

Definition py (s : string) : str := list_ascii_of_string s.

Module PyStr.

(** [str.isspace] on one character, for the code points below 256:
    TAB..CR, FS..US, SPACE, NEL and NBSP. *)
Definition is_space (c : ascii) : bool :=
  let n := nat_of_ascii c in
  ((9 <=? n) && (n <=? 13)) || ((28 <=? n) && (n <=? 32))
  || (n =? 133) || (n =? 160).

(** Simple lower-casing as the [re] module applies it under IGNORECASE:
    A..Z and the Latin-1 capitals (all but the multiplication sign). *)
Definition lower (c : ascii) : ascii :=
  let n := nat_of_ascii c in
  if ((65 <=? n) && (n <=? 90))
     || ((192 <=? n) && (n <=? 222) && negb (n =? 215))
  then ascii_of_nat (n + 32) else c.

Definition eq_cs (a b : ascii) : bool := Ascii.eqb a b.
Definition eq_ci (a b : ascii) : bool := Ascii.eqb (lower a) (lower b).
#[global] Arguments is_space : simpl never.
#[global] Arguments lower : simpl never.
#[global] Arguments eq_cs : simpl never.
#[global] Arguments eq_ci : simpl never.

(** [s.startswith(pat)], with the character comparison as a parameter
    ([pat] is the first argument of [eqc]). *)
Fixpoint startswith_by (eqc : ascii -> ascii -> bool) (pat s : str) : bool :=
  match pat, s with
  | [], _ => true
  | _ :: _, [] => false
  | a :: pat', c :: s' => eqc a c && startswith_by eqc pat' s'
  end.

Definition startswith := startswith_by eq_cs.

(** [pat in s] *)
Fixpoint contains (pat s : str) : bool :=
  startswith pat s ||
  match s with
  | [] => false
  | _ :: s' => contains pat s'
  end.

(** [s.replace(old, new)] for a non-empty [old]: scan from the left; at an
    occurrence emit [new] and skip the occurrence ([skip] counts the
    characters of it still to pass over). *)
Fixpoint replace_from (old new : str) (skip : nat) (s : str) : str :=
  match s with
  | [] => []
  | c :: s' =>
      match skip with
      | S k => replace_from old new k s'
      | O => if startswith old s
             then new ++ replace_from old new (length old - 1) s'
             else c :: replace_from old new 0 s'
      end
  end.

(** With an empty [old] Python puts [new] before every character and at
    the end. *)
Definition replace (old new s : str) : str :=
  match old with
  | [] => new ++ flat_map (fun c => c :: new) s
  | _ :: _ => replace_from old new 0 s
  end.

Fixpoint dropwhile (p : ascii -> bool) (s : str) : str :=
  match s with
  | [] => []
  | c :: s' => if p c then dropwhile p s' else s
  end.

Definition lstrip (s : str) : str := dropwhile is_space s.
Definition rstrip (s : str) : str := rev (dropwhile is_space (rev s)).
(** [s.strip()] *)
Definition strip (s : str) : str := rstrip (lstrip s).

(** [sep.join(parts)] *)
Fixpoint join (sep : str) (parts : list str) : str :=
  match parts with
  | [] => []
  | [p] => p
  | p :: rest => p ++ sep ++ join sep rest
  end.

(** The line break and the double quote, which a literal cannot hold. *)
Definition nl : str := [ascii_of_nat 10].
Definition dq : str := [ascii_of_nat 34].

End PyStr.
Import PyStr.

(** ** Regular expressions

    The two patterns of [extract_python_code] are built from matchers in
    continuation-passing style, which is how a backtracking engine such as
    [re] explores them: a matcher consumes a prefix of the input and hands
    the rest to its continuation; when the continuation fails the matcher
    tries its next alternative. *)

Module Re.

Section Matchers.
Context {A : Type}.

Definition matcher := str -> option A.

(** A literal, compared character by character with [eqc]. *)
Fixpoint lit (eqc : ascii -> ascii -> bool) (pat : str) (k : matcher)
  : matcher :=
  fun s =>
    match pat with
    | [] => k s
    | a :: pat' =>
        match s with
        | [] => None
        | c :: s' => if eqc a c then lit eqc pat' k s' else None
        end
    end.

(** [cls*], greedy: take as many characters as possible, give one back
    at a time while the continuation fails. *)
Fixpoint star_greedy (cls : ascii -> bool) (k : matcher) (s : str)
  : option A :=
  match s with
  | [] => k []
  | c :: s' =>
      if cls c
      then match star_greedy cls k s' with
           | Some r => Some r
           | None => k s
           end
      else k s
  end.

(** [(cls*?)], lazy and capturing: try the continuation first, take one
    more character only when it fails. The continuation receives the
    captured text. *)
Fixpoint star_lazy_group (cls : ascii -> bool) (k : str -> matcher)
  (s : str) : option A :=
  match k [] s with
  | Some r => Some r
  | None =>
      match s with
      | [] => None
      | c :: s' =>
          if cls c
          then star_lazy_group cls (fun cap => k (c :: cap)) s'
          else None
      end
  end.

(** [re.search]: the match at the leftmost start position. *)
Fixpoint search (m : matcher) (s : str) : option A :=
  match m s with
  | Some r => Some r
  | None =>
      match s with
      | [] => None
      | _ :: s' => search m s'
      end
  end.
End Matchers.

(** [\s] and, under DOTALL, [.] *)
Definition cls_space : ascii -> bool := is_space.
Definition cls_dotall : ascii -> bool := fun _ => true.

End Re.

(** ** [extract_python_code] *)

Definition fence : str := py "```".
Definition fence_python : str := py "```python".

(** [r'```python\s*(.*?)```'] with [re.DOTALL | re.IGNORECASE]; the result
    is [match.group(1)]. *)
Definition pattern_python : str -> option str :=
  Re.lit eq_ci fence_python
    (Re.star_greedy Re.cls_space
       (Re.star_lazy_group Re.cls_dotall
          (fun group1 => Re.lit eq_ci fence (fun _ => Some group1)))).

(** [r'```\s*(.*?)```'] with [re.DOTALL]. *)
Definition pattern_generic : str -> option str :=
  Re.lit eq_cs fence
    (Re.star_greedy Re.cls_space
       (Re.star_lazy_group Re.cls_dotall
          (fun group1 => Re.lit eq_cs fence (fun _ => Some group1)))).

Definition extract_python_code (response_text : str) : str :=
  match Re.search pattern_python response_text with
  | Some group1 => strip group1
  | None =>
      match Re.search pattern_generic response_text with
      | Some group1 => strip group1
      | None =>
          let cleaned :=
            strip (replace fence [] (replace fence_python [] response_text)) in
          cleaned
      end
  end.

(** ** Exceptions, the Streamlit calls and the outside world *)

(** The result of a call that may raise; an exception is identified with
    its [str()], the only thing the program reads from it. *)
Inductive exc (A : Type) : Type :=
| Ok (a : A)
| Raise (error : str).
Arguments Ok {A} a.
Arguments Raise {A} error.

(** What a function hands to its caller. *)
Inductive outcome (A : Type) : Type :=
| Returned (a : A)
| Propagated (error : str).
Arguments Returned {A} a.
Arguments Propagated {A} error.

(** Values of the duck-typed attributes of a sandbox result. *)
Inductive pyval : Type :=
| PyNone
| PyStr (s : str)
| PyDict (items : list (str * str)).

(** Python truthiness ([if v:]). *)
Definition truthy (v : pyval) : bool :=
  match v with
  | PyNone => false
  | PyStr [] => false
  | PyStr (_ :: _) => true
  | PyDict [] => false
  | PyDict (_ :: _) => true
  end.

(** A result object of the sandbox; [None] is an attribute the object does
    not have ([hasattr] is false). *)
Record Result : Type := mkResult {
  png : option pyval;
  data : option pyval;
  text : option pyval
}.

(** [hasattr(result, a) and result.a] *)
Definition has_truthy (a : option pyval) : bool :=
  match a with
  | Some v => truthy v
  | None => false
  end.

Record ExecutionError : Type := mkExecutionError {
  err_name : str;
  err_value : str;
  err_traceback : str
}.

(** What [Sandbox.run_code] returns. *)
Record Execution : Type := mkExecution {
  error : option ExecutionError;
  results : list Result
}.

(** A picture opened by PIL, identified by its file content. *)
Inductive image : Type := Picture (png_data : str).

(** One entry of [messages]. *)
Record Message : Type := mkMessage { role : str; content : str }.

(** The keyword arguments of [client.chat.completions.create];
    [temperature] is kept in tenths. *)
Record Request : Type := mkRequest {
  model : option str;
  messages : list Message;
  temperature_tenths : Z;
  max_tokens : Z
}.

(** The calls the program makes on the page and on the two services, in the
    order it makes them. Message texts are kept as their interpolated
    data. *)
Inductive event : Type :=
| Spinner_executing
| RunCode (code : str)
| Error_code_execution (e : ExecutionError)
| Error_executing_code (error : str)
| Spinner_generating (attempt : nat) (token_limit : Z)
| ChatCompletion (i : nat) (req : Request)
| Warning_credit_limit (token_limit : Z)
| Warning_model_busy (old_model : option str)
| Error_failed_response
| Expander_generated_code (llm_response : str)
| Error_communicating (error : str)
| Warning_no_results
| Subheader_results
| Show_image (img : image)
| Error_displaying_image (error : str)
| Show_dataframe (d : pyval)
| Show_text (t : pyval).

(** The services the program talks to. Each call may raise. The chat
    endpoint answers the [i]-th attempt of a run with the content of its
    first choice ([None] when the response carries no content). *)
Record World : Type := mkWorld {
  openai_new : str -> str -> exc unit;
  chat_create : nat -> Request -> exc (option str);
  run_code : str -> exc Execution;
  b64decode : pyval -> exc str;
  image_open : str -> exc image
}.

(** [st.session_state], the fields [chat_with_llm] reads and writes. *)
Record session : Type := mkSession {
  openrouter_api_key : str;
  model_name : option str
}.

(** ** [code_interpret] *)

Definition code_interpret (w : World) (code : str)
  : option (list Result) * list event :=
  match run_code w code with
  | Ok exec_result =>
      match error exec_result with
      | Some e => (None, [Spinner_executing; RunCode code; Error_code_execution e])
      | None => (Some (results exec_result), [Spinner_executing; RunCode code])
      end
  | Raise err => (None, [Spinner_executing; RunCode code; Error_executing_code err])
  end.

(** ** The prompt builder *)

(** A cell of a column: [None] for a null (NaN, None, NaT); otherwise what
    [str()] gives on the value, a text or an exception. *)
Definition cell : Type := option (exc str).

(** A column of a dataframe: its label, the [str()] of its dtype and its
    cells. *)
Record Column : Type := mkColumn {
  col_name : str;
  col_dtype : str;
  col_cells : list cell
}.

(** A dataframe: its columns in order and, for a label that several
    columns carry, what [str()] gives on the row at a position of the
    frame [df[label]]. Labels are texts, as [pd.read_csv] makes them; the
    columns of a pandas frame all have the same number of cells. *)
Record DataFrame : Type := mkDataFrame {
  df_cols : list Column;
  row_str : str -> nat -> exc str
}.

Definition df_columns (df : DataFrame) : list str := map col_name (df_cols df).
Definition df_dtypes (df : DataFrame) : list str := map col_dtype (df_cols df).

Definition str_eqb (a b : str) : bool :=
  (length a =? length b) && startswith a b.

(** What [df[col]] selects: a Series for a label that one column carries,
    a DataFrame of all the columns that carry it otherwise. *)
Inductive selected : Type :=
| Series (cells : list cell)
| Frame (cols : list (list cell)).

(** [df[col]]; KeyError when no column carries the label. *)
Definition getitem (df : DataFrame) (col : str) : exc selected :=
  match filter (fun c => str_eqb (col_name c) col) (df_cols df) with
  | [] => Raise col
  | [c] => Ok (Series (col_cells c))
  | cs => Ok (Frame (map col_cells cs))
  end.

(** [series.dropna()] *)
Fixpoint dropna (cells : list cell) : list (exc str) :=
  match cells with
  | [] => []
  | Some v :: rest => v :: dropna rest
  | None :: rest => dropna rest
  end.

(** The row at position [i] of a frame holds no null. *)
Definition row_complete (cols : list (list cell)) (i : nat) : bool :=
  forallb (fun cells => match nth_error cells i with
                        | Some (Some _) => true
                        | _ => false
                        end) cols.

Definition frame_rows (cols : list (list cell)) : nat :=
  match cols with
  | [] => 0
  | cells :: _ => length cells
  end.

(** [frame.dropna()]: the positions of the rows it keeps. *)
Definition dropna_rows (cols : list (list cell)) : list nat :=
  filter (row_complete cols) (seq 0 (frame_rows cols)).

(** [str(sample_val)], for
    [sample_val = df[col].dropna().iloc[0] if not df[col].dropna().empty
    else "N/A"]. *)
Definition sample_val (df : DataFrame) (col : str) (sel : selected)
  : exc str :=
  match sel with
  | Series cells =>
      match dropna cells with
      | [] => Ok (py "N/A")
      | v :: _ => v
      end
  | Frame cols =>
      match dropna_rows cols with
      | [] => Ok (py "N/A")
      | i :: _ => row_str df col i
      end
  end.

(** [f"- {col} ({dtype}) | Sample: '{str(sample_val)[:50]}...'"] *)
Definition column_line (col dtype sample : str) : str :=
  py "- " ++ col ++ py " (" ++ dtype ++ py ") | Sample: '"
  ++ firstn 50 sample ++ py "...'".

(** The loop that fills [columns_list]; it runs before the [try]. *)
Fixpoint columns_loop (df : DataFrame) (todo : list (str * str))
  (columns_list : list str) : exc (list str) :=
  match todo with
  | [] => Ok columns_list
  | (col, dtype) :: todo' =>
      match getitem df col with
      | Raise e => Raise e
      | Ok selection =>
          match sample_val df col selection with
          | Raise e => Raise e
          | Ok sample =>
              columns_loop df todo'
                (columns_list ++ [column_line col dtype sample])
          end
      end
  end.

Definition columns_list (df : DataFrame) : exc (list str) :=
  columns_loop df (combine (df_columns df) (df_dtypes df)) [].

Definition prompt_head (dataset_path : str) : str :=
  py "You're a Python data scientist and visualization expert.

The dataset is available at path '" ++ dataset_path ++ py "'.

Available Columns:
".

Definition prompt_task (dataset_path : str) : str :=
  py "

Your task is to:
1. Load the dataset using pandas: df = pd.read_csv('" ++ dataset_path ++ py "')
2. Analyze the data based on the user's question
3. Create appropriate visualizations using matplotlib or seaborn
4. Use plt.tight_layout() and plt.savefig() to save plots

IMPORTANT:
- USE ONLY the columns listed above. Do not invent column names.
- Write complete, executable Python code
- Always import: pandas, matplotlib.pyplot, seaborn, numpy
- Use matplotlib (not plotly) for all charts
- SAFETY: Check `if not result.empty:` before plotting/indexing! Print " ++ dq ++ py "No data found" ++ dq ++ py " if empty.
- DATA CLEANING:
  - Cast columns to string before `.str` ops: `df['c']=df['c'].astype(str)`.
  - Clean Lists: `df['c']=df['c'].str.replace(r'[\[\]" ++ dq ++ py "'']','',regex=True).str.split(',').explode()`
  - Filter: Remove 'nan', empty, len<2.
- OUTPUT RULES:
  - **DEFAULT:** Generate Table (`results_df`) or PRINT(). **NO CHARTS** unless asked.
  - If user wants Chart: `sns.set_theme(style=" ++ dq ++ py "whitegrid" ++ dq ++ py ")`, `plt.figure(figsize=(10,6))`. Concise inputs.
  - If answer is a TABLE:
    - Create a pandas DataFrame named 'results_df'
    - Limit to top 15 rows
    - Round numeric columns to 2 decimal places

Provide ONLY the Python code wrapped in ```python code blocks.
If you create a plot, save it as 'plot.png'.
If you create a table, ensure it is in a variable named 'results_df'.
".

Definition system_prompt (dataset_path columns_info : str) : str :=
  prompt_head dataset_path ++ columns_info ++ prompt_task dataset_path.

(** ** The retry ladder of [chat_with_llm] *)

Definition token_attempts : list Z := [2000; 500; 200]%Z.

Definition gemini_free : str := py "google/gemini-2.0-flash-exp:free".

Definition base_url : str := py "https://openrouter.ai/api/v1".

(** [enumerate(l)] *)
Definition enumerate {A : Type} (l : list A) : list (nat * A) :=
  combine (seq 0 (length l)) l.

(** [st.session_state.model_name != name] *)
Definition model_differs (m : option str) (name : str) : bool :=
  match m with
  | Some n => negb (str_eqb n name)
  | None => true
  end.

(** The [except Exception as e] block of the loop: [Some] is [continue],
    with the session as the block leaves it and the warning it shows;
    [None] is [raise e]. *)
Definition on_error (i : nat) (token_limit : Z) (error_msg : str)
  (ss : session) : option (session * event) :=
  if contains (py "402") error_msg && (i <? length token_attempts - 1)
  then Some (ss, Warning_credit_limit token_limit)
  else if (contains (py "429") error_msg || contains (py "50") error_msg)
          && model_differs (model_name ss) gemini_free
  then Some (mkSession (openrouter_api_key ss) (Some gemini_free),
             Warning_model_busy (model_name ss))
  else None.

Definition chat_request (ss : session) (system_prompt user_message : str)
  (token_limit : Z) : Request :=
  mkRequest (model_name ss)
    [mkMessage (py "system") system_prompt; mkMessage (py "user") user_message]
    2 token_limit.

(** [for i, token_limit in enumerate(token_attempts)]: the value of
    [llm_response] when the loop is left normally, or the exception that
    leaves it; with the session and the calls made. *)
Fixpoint retry_loop (w : World) (system_prompt user_message : str)
  (todo : list (nat * Z)) (ss : session)
  : exc (option str) * session * list event :=
  match todo with
  | [] => (Ok None, ss, [])
  | (i, token_limit) :: todo' =>
      let req := chat_request ss system_prompt user_message token_limit in
      let called := [Spinner_generating (i + 1) token_limit; ChatCompletion i req] in
      match chat_create w i req with
      | Ok llm_response => (Ok llm_response, ss, called)
      | Raise error_msg =>
          match on_error i token_limit error_msg ss with
          | Some (ss', warning) =>
              let '(r, ss'', evs) :=
                retry_loop w system_prompt user_message todo' ss' in
              (r, ss'', called ++ warning :: evs)
          | None => (Raise error_msg, ss, called)
          end
      end
  end.

(** The body of the outer [try]. *)
Definition chat_try (w : World) (system_prompt user_message : str)
  (ss : session)
  : exc (option (list Result) * str) * session * list event :=
  match openai_new w base_url (openrouter_api_key ss) with
  | Raise e => (Raise e, ss, [])
  | Ok _ =>
      let '(r, ss', evs) :=
        retry_loop w system_prompt user_message (enumerate token_attempts) ss in
      match r with
      | Raise e => (Raise e, ss', evs)
      | Ok None =>
          (Ok (None, py "Failed to generate LLM response."), ss',
           evs ++ [Error_failed_response])
      | Ok (Some llm_response) =>
          let python_code := extract_python_code llm_response in
          let '(code_results, evs2) := code_interpret w python_code in
          (Ok (code_results, llm_response), ss',
           evs ++ Expander_generated_code llm_response :: evs2)
      end
  end.

Definition chat_with_llm (w : World) (ss : session)
  (user_message dataset_path : str) (df : DataFrame)
  : outcome (option (list Result) * str) * session * list event :=
  match columns_list df with
  | Raise e => (Propagated e, ss, [])
  | Ok lines =>
      let columns_info := join nl lines in
      let prompt := system_prompt dataset_path columns_info in
      let '(r, ss', evs) := chat_try w prompt user_message ss in
      match r with
      | Ok res => (Returned res, ss', evs)
      | Raise error => (Returned (None, error), ss', evs ++ [Error_communicating error])
      end
  end.

(** The attempts of a run: the chat-completion calls among its events. *)
Fixpoint llm_calls (evs : list event) : list (nat * Request) :=
  match evs with
  | [] => []
  | ChatCompletion i req :: evs' => (i, req) :: llm_calls evs'
  | _ :: evs' => llm_calls evs'
  end.

(** ** [display_visualization_results] *)

(** [hasattr(result, a) and result.a], keeping the value it tested. *)
Definition attr_if_truthy (a : option pyval) : option pyval :=
  match a with
  | Some v => if truthy v then Some v else None
  | None => None
  end.

(** The body of the [for result in code_results] loop. *)
Definition display_result (w : World) (result : Result) : list event :=
  match attr_if_truthy (png result) with
  | Some v =>
      match b64decode w v with
      | Raise e => [Error_displaying_image e]
      | Ok png_data =>
          match image_open w png_data with
          | Raise e => [Error_displaying_image e]
          | Ok img => [Show_image img]
          end
      end
  | None =>
      match attr_if_truthy (data result) with
      | Some d => [Show_dataframe d]
      | None =>
          match attr_if_truthy (text result) with
          | Some t => [Show_text t]
          | None => []
          end
      end
  end.

(** [not code_results] holds of [None] and of the empty list. *)
Definition display_visualization_results (w : World)
  (code_results : option (list Result)) : list event :=
  match code_results with
  | None | Some [] => [Warning_no_results]
  | Some rs => Subheader_results :: flat_map (display_result w) rs
  end.

(** ** Notions the statements below are written in *)

(** The text before the first occurrence of [pat] in [s]. *)
Fixpoint before_first (pat s : str) : option str :=
  if startswith pat s then Some []
  else match s with
       | [] => None
       | c :: s' => option_map (cons c) (before_first pat s')
       end.

(** [pat] occurs in [s]. *)
Definition occurs (pat s : str) : Prop :=
  exists pre post, s = pre ++ pat ++ post.

(** [text] holds a fenced block: an opener accepted by [opens], a body and
    a closing fence. *)
Definition is_block (opens : str -> Prop) (text pre op body post : str)
  : Prop :=
  text = pre ++ op ++ body ++ fence ++ post /\ opens op.

Definition has_block (opens : str -> Prop) (text : str) : Prop :=
  exists pre op body post, is_block opens text pre op body post.

(** [body] is the content of the first block of [text]: no block opens
    earlier, and none with the same opener closes earlier. *)
Definition first_block (opens : str -> Prop) (text body : str) : Prop :=
  exists pre op post,
    is_block opens text pre op body post /\
    forall pre' op' body' post',
      is_block opens text pre' op' body' post' ->
      length pre < length pre' \/
      (length pre = length pre' /\ length body <= length body').

Definition opens_generic (op : str) : Prop := op = fence.
Definition opens_python_exact (op : str) : Prop := op = fence_python.
(** [```python] in any letter case. *)
Definition opens_python_anycase (op : str) : Prop :=
  map lower op = fence_python.

(** What [extract_python_code] computes, for a given reading of "opened by
    [```python]". *)
Definition extract_spec (opens_python : str -> Prop) : Prop :=
  forall text : str,
    (forall body, first_block opens_python text body ->
                  extract_python_code text = strip body) /\
    (~ has_block opens_python text ->
     forall body, first_block opens_generic text body ->
                  extract_python_code text = strip body) /\
    (~ has_block opens_python text -> ~ has_block opens_generic text ->
     extract_python_code text
     = strip (replace fence [] (replace fence_python [] text))).

(** The content of a block that opens at the very start of [s]: an opener
    (compared with [eqc]), then everything up to the first fence. *)
Definition block_here (eqc : ascii -> ascii -> bool) (opener s : str)
  : option str :=
  if startswith_by eqc opener s
  then before_first fence (skipn (length opener) s)
  else None.

(** No leading whitespace. *)
Definition headed (s : str) : Prop :=
  match s with
  | [] => True
  | c :: _ => is_space c = false
  end.

(** *** Runs of [chat_with_llm] *)

(** The [k]-th attempt of a run was made, with request [req]. *)
Definition attempt_made (evs : list event) (k : nat) (req : Request) : Prop :=
  nth_error (llm_calls evs) k = Some (k, req).

(** The [k]-th attempt was made and failed with the error text [msg]. *)
Definition attempt_fails (w : World) (evs : list event) (k : nat)
  (req : Request) (msg : str) : Prop :=
  attempt_made evs k req /\ chat_create w k req = Raise msg.

(** No attempt follows the [k]-th. *)
Definition last_attempt (evs : list event) (k : nat) : Prop :=
  length (llm_calls evs) = S k.

(** How the value the loop leaves in [llm_response], or the exception that
    leaves the loop, shows in what [chat_with_llm] returns and displays. *)
Definition loop_reply (r : exc (option str))
  (out : outcome (option (list Result) * str)) (evs : list event) : Prop :=
  match r with
  | Raise e => out = Returned (None, e) /\ In (Error_communicating e) evs
  | Ok None =>
      out = Returned (None, py "Failed to generate LLM response.") /\
      In Error_failed_response evs
  | Ok (Some llm_response) =>
      exists code_results, out = Returned (code_results, llm_response)
  end.

(** The three components of what [chat_with_llm] yields. *)
Definition run : Type :=
  (outcome (option (list Result) * str) * session * list event)%type.
Definition returned (x : run) := fst (fst x).
Definition final_session (x : run) : session := snd (fst x).
Definition events (x : run) : list event := snd x.

(** C2 as the claim words it: only "402" and "429" are retried. *)
Definition C2_as_stated : Prop :=
  forall w ss user_message dataset_path df k req msg,
    let x : run := chat_with_llm w ss user_message dataset_path df in
    attempt_fails w (events x) k req msg ->
    contains (py "402") msg = false ->
    contains (py "429") msg = false ->
    last_attempt (events x) k /\ returned x = Returned (None, msg).

(** C4 as the claim words it: every "429"/"50" failure switches a model
    other than Gemini and is retried, and is re-raised under Gemini. *)
Definition C4_as_stated : Prop :=
  forall w ss user_message dataset_path df k req msg,
    let x : run := chat_with_llm w ss user_message dataset_path df in
    attempt_fails w (events x) k req msg ->
    contains (py "429") msg || contains (py "50") msg = true ->
    (model_differs (model req) gemini_free = true ->
     exists req', attempt_made (events x) (S k) req' /\
                  model req' = Some gemini_free) /\
    (model_differs (model req) gemini_free = false ->
     last_attempt (events x) k /\ returned x = Returned (None, msg)).

(** *** Concrete inputs *)

Definition fenced_reply : str :=
  py "```python" ++ nl ++ py "print(1)" ++ nl ++ py "```".

Definition empty_execution : Execution := mkExecution None [].

(** A world whose chat endpoint fails the first attempt with [first_error]
    and answers the later ones. *)
Definition world_first_fails (first_error : str) : World :=
  mkWorld (fun _ _ => Ok tt)
          (fun i _ => match i with
                      | O => Raise first_error
                      | S _ => Ok (Some fenced_reply)
                      end)
          (fun _ => Ok empty_execution)
          (fun _ => Raise (py "Incorrect padding"))
          (fun png_data => Ok (Picture png_data)).

(** A world whose chat endpoint always fails with [error]. *)
Definition world_always_fails (error : str) : World :=
  mkWorld (fun _ _ => Ok tt)
          (fun _ _ => Raise error)
          (fun _ => Ok empty_execution)
          (fun _ => Raise (py "Incorrect padding"))
          (fun png_data => Ok (Picture png_data)).

Definition error_503 : str := py "Error code: 503 - Service Unavailable".
Definition error_429 : str := py "Error code: 429 - Rate limit exceeded".
Definition error_401 : str := py "Error code: 401 - No auth credentials found".
Definition error_402 : str := py "Error code: 402 - Insufficient credits".
Definition error_402_afford : str :=
  py "Error code: 402 - This request requires more credits, or fewer max_tokens. You requested up to 2000 tokens, but can only afford 500.".

Definition session_gpt4o : session :=
  mkSession (py "sk-or-v1") (Some (py "openai/gpt-4o")).
Definition session_gemini : session :=
  mkSession (py "sk-or-v1") (Some gemini_free).

Definition df_sales : DataFrame :=
  mkDataFrame
    [mkColumn (py "city") (py "object")
       [None; Some (Ok (py "Paris")); Some (Ok (py "Rome"))];
     mkColumn (py "sales") (py "float64") [Some (Ok (py "12.5"))];
     mkColumn (py "notes") (py "float64") [None; None]]
    (fun label _ => Raise label).

Definition question : str := py "plot sales by city".
Definition sales_path : str := py "./sales.csv".

(** The prompt [chat_with_llm] builds for [df_sales]. *)
Definition prompt_sales : str :=
  system_prompt sales_path
    (join nl match columns_list df_sales with
             | Ok lines => lines
             | Raise _ => []
             end).

(** A run whose first attempt fails with [first_error]. *)
Definition run_first_fails (first_error : str) (ss : session) : run :=
  chat_with_llm (world_first_fails first_error) ss question sales_path df_sales.

(** A run whose attempts all fail with [error]. *)
Definition run_always_fails (error : str) (ss : session) : run :=
  chat_with_llm (world_always_fails error) ss question sales_path df_sales.

(** *** The renderer and the prompt, in the words of the claims *)

(** C6 as the claim words it: each result shows as the first of image,
    table and text whose attribute is non-empty. *)
Definition C6_as_stated : Prop :=
  forall (w : World) (result : Result),
    (has_truthy (png result) = true ->
     exists img, display_result w result = [Show_image img]) /\
    (has_truthy (png result) = false -> has_truthy (data result) = true ->
     exists d, display_result w result = [Show_dataframe d]) /\
    (has_truthy (png result) = false -> has_truthy (data result) = false ->
     has_truthy (text result) = true ->
     exists t, display_result w result = [Show_text t]) /\
    (has_truthy (png result) = false -> has_truthy (data result) = false ->
     has_truthy (text result) = false ->
     display_result w result = []).

(** The first non-null cell of a column. *)
Fixpoint first_non_null (cells : list cell) : option (exc str) :=
  match cells with
  | [] => None
  | Some v :: _ => Some v
  | None :: rest => first_non_null rest
  end.

(** [str()] raises nothing on the first non-null cell of the column. *)
Definition renders (c : Column) : Prop :=
  forall e, first_non_null (col_cells c) <> Some (Raise e).

(** The sample a column shows: its first non-null cell cut to 50
    characters, or "N/A". *)
Definition shown_sample (c : Column) : str :=
  match first_non_null (col_cells c) with
  | Some (Ok v) => firstn 50 v
  | Some (Raise _) => []
  | None => py "N/A"
  end.

(** The line of a column. *)
Definition column_entry (c : Column) : str :=
  py "- " ++ col_name c ++ py " (" ++ col_dtype c ++ py ") | Sample: '"
  ++ shown_sample c ++ py "...'".

(** The lines of a text: what lies between its line breaks. *)
Fixpoint split_lines (s : str) : list str :=
  match s with
  | [] => [[]]
  | c :: s' =>
      if Ascii.eqb c (ascii_of_nat 10) then [] :: split_lines s'
      else match split_lines s' with
           | [] => [[c]]
           | line :: rest => (c :: line) :: rest
           end
  end.

(** C8 as the claim words it: for every dataframe the column block of the
    prompt is built and its lines are the lines of the columns, one each,
    in column order. *)
Definition C8_as_stated : Prop :=
  forall df : DataFrame,
    exists lines,
      columns_list df = Ok lines /\
      split_lines (join nl lines) = map column_entry (df_cols df).

(** C10 as the claim words it: whatever the input, [chat_with_llm] hands
    a pair to its caller. *)
Definition C10_as_stated : Prop :=
  forall w ss user_message dataset_path df,
    exists code_results reply,
      returned (chat_with_llm w ss user_message dataset_path df)
      = Returned (code_results, reply).

(** A frame with a text cell of two lines. *)
Definition df_multiline : DataFrame :=
  mkDataFrame
    [mkColumn (py "id") (py "int64") [Some (Ok (py "1"))];
     mkColumn (py "note") (py "object") [Some (Ok (py "a" ++ nl ++ py "b"))]]
    (fun label _ => Raise label).

(** A frame with a cell on which [str()] raises. *)
Definition df_unprintable : DataFrame :=
  mkDataFrame
    [mkColumn (py "obj") (py "object") [Some (Raise (py "boom"))]]
    (fun label _ => Raise label).

(** A frame with two columns labelled [a]; its rows print as pandas prints
    a Series. *)
Definition df_repeated : DataFrame :=
  mkDataFrame
    [mkColumn (py "a") (py "int64") [Some (Ok (py "1"))];
     mkColumn (py "a") (py "object") [Some (Ok (py "x"))]]
    (fun _ _ => Ok (py "a    1" ++ nl ++ py "a    x" ++ nl
                    ++ py "Name: 0, dtype: object")).

Definition result_png (b64 : str) : Result :=
  mkResult (Some (PyStr b64)) (Some (PyDict [(py "text/plain", py "<Figure>")]))
           (Some (PyStr (py "<Figure>"))).

(** A world whose sandbox raises. *)
Definition world_sandbox_down : World :=
  mkWorld (fun _ _ => Ok tt)
          (fun _ _ => Ok (Some fenced_reply))
          (fun _ => Raise (py "sandbox timeout"))
          (fun _ => Raise (py "Incorrect padding"))
          (fun png_data => Ok (Picture png_data)).

(** ** The rest of the page: upload, the Analyze button, the sidebar *)

(** The file the user uploaded. *)
Record UploadedFile : Type := mkUploadedFile {
  file_name : str;
  file_content : str
}.

(** The sandbox service around a [World]: creating a sandbox, writing a
    file into it and killing it may each raise. *)
Record App : Type := mkApp {
  app_world : World;
  sandbox_create : exc unit;
  files_write : str -> str -> exc unit;
  sandbox_kill : exc unit
}.

(** What the button handler does on the page and on the services; [Core]
    wraps what [chat_with_llm] and the renderer do. *)
Inductive page_event : Type :=
| Core (e : event)
| Error_missing_openrouter_key
| Error_missing_e2b_key
| Error_missing_question
| Spinner_initializing
| Environ_e2b_api_key (key : str)
| Sandbox_create
| Seek_start
| Spinner_uploading
| Files_write (path data : str)
| Success_uploaded (name : str)
| Error_file_upload (error : str)
| Success_analysis_complete
| Warning_no_visualization
| Error_occurred (error : str)
| Info_check_keys
| Sandbox_kill.

(** [upload_dataset]: the path on success; on failure the error is shown
    and raised again. *)
Definition upload_dataset (a : App) (uploaded_file : UploadedFile)
  : outcome str * list page_event :=
  let dataset_path := py "./" ++ file_name uploaded_file in
  let written :=
    [Spinner_uploading; Files_write dataset_path (file_content uploaded_file)] in
  match files_write a dataset_path (file_content uploaded_file) with
  | Ok _ =>
      (Returned dataset_path,
       written ++ [Success_uploaded (file_name uploaded_file)])
  | Raise e => (Propagated e, written ++ [Error_file_upload e])
  end.

(** [if code_results:] on the first component of [chat_with_llm]. *)
Definition results_truthy (code_results : option (list Result)) : bool :=
  match code_results with
  | Some (_ :: _) => true
  | _ => false
  end.

(** The [finally] block: the sandbox is killed, an exception of [kill]
    is passed over. *)
Definition finally_kill (a : App) : list page_event :=
  match sandbox_kill a with
  | Ok _ => [Sandbox_kill]
  | Raise _ => [Sandbox_kill]
  end.

(** The text holds a NUL character. *)
Definition has_nul (s : str) : bool := existsb (Ascii.eqb (ascii_of_nat 0)) s.

(** [os.environ[name] = value]: a value with an embedded NUL is refused
    with a ValueError. *)
Definition environ_set (value : str) : exc unit :=
  if has_nul value then Raise (py "embedded null byte") else Ok tt.

(** The [except Exception as e] block of the handler. *)
Definition show_failure (e : str) : list page_event :=
  [Error_occurred e; Info_check_keys].

(** The body of [if st.button("Analyze")], from the three checks to the
    [finally]. *)
Definition analyze (a : App) (ss : session) (e2b_api_key query : str)
  (uploaded_file : UploadedFile) (df : DataFrame)
  : session * list page_event :=
  match openrouter_api_key ss, e2b_api_key, query with
  | [], _, _ => (ss, [Error_missing_openrouter_key])
  | _ :: _, [], _ => (ss, [Error_missing_e2b_key])
  | _ :: _, _ :: _, [] => (ss, [Error_missing_question])
  | _ :: _, _ :: _, _ :: _ =>
      match environ_set e2b_api_key with
      | Raise e => (ss, Spinner_initializing :: show_failure e)
      | Ok _ =>
      let init :=
        [Spinner_initializing; Environ_e2b_api_key e2b_api_key; Sandbox_create] in
      match sandbox_create a with
      | Raise e => (ss, init ++ show_failure e)
      | Ok _ =>
          match upload_dataset a uploaded_file with
          | (Propagated e, up) =>
              (ss, init ++ Seek_start :: up ++ show_failure e ++ finally_kill a)
          | (Returned dataset_path, up) =>
              let '(out, ss', evs) :=
                chat_with_llm (app_world a) ss query dataset_path df in
              let shown :=
                match out with
                | Propagated e => show_failure e
                | Returned (code_results, llm_response) =>
                    if results_truthy code_results
                    then Success_analysis_complete
                         :: map Core (display_visualization_results
                                        (app_world a) code_results)
                    else [Warning_no_visualization]
                end in
              (ss', init ++ Seek_start :: up ++ map Core evs ++ shown
                    ++ finally_kill a)
          end
      end
      end
  end.

(** *** [st.session_state] as a dictionary *)

Inductive state_value : Type :=
| SVStr (s : str)
| SVBool (b : bool)
| SVNone.

(** Keys in insertion order, each once. *)
Definition session_state := list (str * state_value).

(** [st.session_state.get(key)] *)
Fixpoint state_get (key : str) (st : session_state) : option state_value :=
  match st with
  | [] => None
  | (k, v) :: st' => if str_eqb k key then Some v else state_get key st'
  end.

(** [key in st.session_state] *)
Definition state_has (key : str) (st : session_state) : bool :=
  match state_get key st with
  | Some _ => true
  | None => false
  end.

(** [st.session_state[key] = v]: in place for a key that is there, at the
    end for a new one. *)
Fixpoint state_set (key : str) (v : state_value) (st : session_state)
  : session_state :=
  match st with
  | [] => [(key, v)]
  | (k, v0) :: st' =>
      if str_eqb k key then (k, v) :: st'
      else (k, v0) :: state_set key v st'
  end.

Definition session_defaults : list (str * state_value) :=
  [(py "openrouter_api_key", SVStr []);
   (py "e2b_api_key", SVStr []);
   (py "model_name", SVStr gemini_free);
   (py "is_premium", SVBool false)].

(** The loop [for key, default in ...: if key not in st.session_state]. *)
Fixpoint init_loop (todo : list (str * state_value)) (st : session_state)
  : session_state :=
  match todo with
  | [] => st
  | (key, default) :: todo' =>
      init_loop todo'
        (if state_has key st then st else state_set key default st)
  end.

Definition init_session_state (st : session_state) : session_state :=
  init_loop session_defaults st.

(** *** The model selector and the licence check *)

(** The pictographs that open the labels, as their UTF-8 bytes; [in] and
    [==] on labels read the same on bytes and on code points. *)
Definition icon_llama : str := map ascii_of_nat [196; 159; 197; 184; 194; 166; 226; 132; 162].
Definition icon_flash : str := map ascii_of_nat [195; 162; 197; 161; 194; 161].
Definition icon_unknown : str := map ascii_of_nat [195; 175; 194; 191; 194; 189].
Definition icon_mask : str := map ascii_of_nat [196; 159; 197; 184; 194; 173].

Definition model_options : list (str * str) :=
  [(icon_llama ++ py " [FREE] Llama 3.3 70B", py "meta-llama/llama-3.3-70b-instruct:free");
   (icon_flash ++ py " [FREE] Gemini Flash 2.0", py "google/gemini-2.0-flash-exp:free");
   (icon_unknown ++ py " [FREE] GPT-4o", py "openai/gpt-4o");
   (icon_unknown ++ py " [PREMIUM] DeepSeek R1", py "deepseek/deepseek-r1");
   (icon_mask ++ py " [PREMIUM] Claude 3.5 Sonnet", py "anthropic/claude-3.5-sonnet")].

(** [d[key]] on a dictionary of strings; KeyError when the key is absent. *)
Fixpoint dict_getitem (d : list (str * str)) (key : str) : exc str :=
  match d with
  | [] => Raise key
  | (k, v) :: d' => if str_eqb k key then Ok v else dict_getitem d' key
  end.

Inductive sidebar_event : Type :=
| Warning_model_locked
| Expander_upgrade
| Success_premium_unlocked
| Error_invalid_license.

(** What [check_premium_access] comes to: it returns, or [st.rerun()]
    stops the script. *)
Inductive premium_check : Type :=
| Access (granted : bool)
| Rerun.

(** [check_premium_access], given the text of the licence field and
    whether "Unlock Pro" was pressed; with [is_premium] as it leaves it. *)
Definition check_premium_access (is_premium : bool) (access_code : str)
  (unlock_pressed : bool) : premium_check * bool * list sidebar_event :=
  if is_premium then (Access true, is_premium, [])
  else if unlock_pressed then
    if str_eqb access_code (py "PRO-2025")
    then (Rerun, true,
          [Warning_model_locked; Expander_upgrade; Success_premium_unlocked])
    else (Access false, is_premium,
          [Warning_model_locked; Expander_upgrade; Error_invalid_license])
  else (Access false, is_premium, [Warning_model_locked; Expander_upgrade]).

(** How the selector leaves the script: [model_name] assigned, the script
    rerun before the assignment, or a KeyError. *)
Inductive selection : Type :=
| Model_assigned (model_name : option str)
| Script_rerun
| Key_error (label : str).

(** The lines from [st.selectbox] to the assignment of [model_name]. *)
Definition select_model (is_premium : bool) (selected_label access_code : str)
  (unlock_pressed : bool) : selection * bool * list sidebar_event :=
  let assigned :=
    match dict_getitem model_options selected_label with
    | Ok m => Model_assigned (Some m)
    | Raise k => Key_error k
    end in
  if contains (py "[PREMIUM]") selected_label then
    match check_premium_access is_premium access_code unlock_pressed with
    | (Access true, premium, evs) => (assigned, premium, evs)
    | (Access false, premium, evs) => (Model_assigned None, premium, evs)
    | (Rerun, premium, evs) => (Script_rerun, premium, evs)
    end
  else (assigned, is_premium, []).

(** ** [test_together_api.py] *)

(** The console and the Together client: the line typed at the prompt, and
    the answer of the one chat call made with a key (the content of the
    first choice), which may raise. *)
Record Console : Type := mkConsole {
  input_line : str;
  together_chat : str -> exc (option str)
}.

Inductive printed : Type :=
| Print_no_key
| Print_testing
| Together_call (api_key : str)
| Print_key_works (response : option str)
| Print_key_valid
| Print_test_failed
| Print_error (error : str)
| Print_solutions
| Print_no_model_access
| Print_check_connection.

(** The hint printed after a failure. *)
Definition failure_hint (error : str) : printed :=
  if contains (py "401") error || contains (py "Invalid API key") error
  then Print_solutions
  else if contains (py "403") error then Print_no_model_access
  else Print_check_connection.

Definition test_api_key (c : Console) : list printed :=
  let api_key := strip (input_line c) in
  match api_key with
  | [] => [Print_no_key]
  | _ :: _ =>
      match together_chat c api_key with
      | Ok result =>
          [Print_testing; Together_call api_key; Print_key_works result;
           Print_key_valid]
      | Raise e =>
          [Print_testing; Together_call api_key; Print_test_failed;
           Print_error e; failure_hint e]
      end
  end.

(** *** Counting in the statements *)

Definition is_kill (e : page_event) : bool :=
  match e with Sandbox_kill => true | _ => false end.

(** The messages that tell the user how the click ended. *)
Definition is_verdict (e : page_event) : bool :=
  match e with
  | Error_missing_openrouter_key | Error_missing_e2b_key
  | Error_missing_question | Success_analysis_complete
  | Warning_no_visualization | Error_occurred _ => true
  | _ => false
  end.

(** The calls that leave the page: sandbox creation, file write, chat
    completion, code execution. *)
Definition is_service_call (e : page_event) : bool :=
  match e with
  | Sandbox_create | Files_write _ _ | Sandbox_kill
  | Core (ChatCompletion _ _) | Core (RunCode _) => true
  | _ => false
  end.

Definition is_run_code (e : event) : bool :=
  match e with RunCode _ => true | _ => false end.

(** The [st.error] calls of [chat_with_llm] and [code_interpret]. *)
Definition is_error_shown (e : event) : bool :=
  match e with
  | Error_code_execution _ | Error_executing_code _
  | Error_failed_response | Error_communicating _ => true
  | _ => false
  end.

Definition is_model_switch (e : event) : bool :=
  match e with Warning_model_busy _ => true | _ => false end.

(** A result with some non-empty attribute. *)
Definition has_content (r : Result) : bool :=
  has_truthy (png r) || has_truthy (data r) || has_truthy (text r).

Definition whitespace_only (s : str) : Prop := Forall (fun c => is_space c = true) s.

Definition premium_models : list str :=
  [py "deepseek/deepseek-r1"; py "anthropic/claude-3.5-sonnet"].

(** A small app around [world_first_fails]. *)
Definition app_of (w : World) (create : exc unit) (write : exc unit)
  : App :=
  mkApp w create (fun _ _ => write) (Ok tt).

Definition sales_file : UploadedFile :=
  mkUploadedFile (py "sales.csv") (py "city,sales,notes").

(** What the retry loop itself does: spinners, calls and warnings. *)
Definition is_loop_event (e : event) : bool :=
  match e with
  | Spinner_generating _ _ | ChatCompletion _ _
  | Warning_credit_limit _ | Warning_model_busy _ => true
  | _ => false
  end.

(** A world whose chat endpoint answers without content. *)
Definition world_no_content : World :=
  mkWorld (fun _ _ => Ok tt)
          (fun _ _ => Ok None)
          (fun _ => Ok empty_execution)
          (fun _ => Raise (py "Incorrect padding"))
          (fun png_data => Ok (Picture png_data)).

(** A world whose sandbox reports an error of the generated code. *)
Definition world_code_fails : World :=
  mkWorld (fun _ _ => Ok tt)
          (fun _ _ => Ok (Some fenced_reply))
          (fun _ => Ok (mkExecution
                          (Some (mkExecutionError (py "NameError")
                                   (py "name 'df' is not defined") []))
                          []))
          (fun _ => Raise (py "Incorrect padding"))
          (fun png_data => Ok (Picture png_data)).

(** * Properties *)

(** ** Strings *)

Lemma eq_cs_true (a c : ascii) : eq_cs a c = true <-> a = c.
Proof. unfold eq_cs. apply Ascii.eqb_eq. Qed.

Lemma startswith_app (pat post : str) : startswith pat (pat ++ post) = true.
Proof.
  induction pat as [|a pat IH]; simpl; [reflexivity|].
  unfold startswith in *; simpl.
  rewrite IH, andb_true_r. now apply eq_cs_true.
Qed.

Lemma startswith_inv (pat s : str) :
  startswith pat s = true -> exists post, s = pat ++ post.
Proof.
  revert s; induction pat as [|a pat IH]; intros s H.
  - now exists s.
  - destruct s as [|c s]; [discriminate|].
    unfold startswith in *; simpl in H.
    apply andb_true_iff in H as [Hc Hs].
    apply eq_cs_true in Hc; subst c.
    destruct (IH _ Hs) as [post ->]. now exists post.
Qed.

Lemma startswith_iff (pat s : str) :
  startswith pat s = true <-> exists post, s = pat ++ post.
Proof.
  split; [apply startswith_inv|].
  intros [post ->]; apply startswith_app.
Qed.

Lemma startswith_skipn (pat s : str) :
  startswith pat s = true -> s = pat ++ skipn (length pat) s.
Proof.
  intros H; apply startswith_inv in H as [post ->].
  now rewrite skipn_app, Nat.sub_diag, skipn_all.
Qed.

Lemma contains_iff (pat s : str) : contains pat s = true <-> occurs pat s.
Proof.
  induction s as [|c s IH]; simpl.
  - rewrite orb_false_r, startswith_iff. split.
    + intros [post E]. now exists [], post.
    + intros (pre & post & E). destruct pre; [now exists post|discriminate].
  - rewrite orb_true_iff, IH, startswith_iff. split.
    + intros [[post E]|(pre & post & E)].
      * now exists [], post.
      * exists (c :: pre), post. now rewrite E.
    + intros (pre & post & E). destruct pre as [|c' pre].
      * left; now exists post.
      * right; exists pre, post. now inversion E.
Qed.

Lemma contains_false_iff (pat s : str) :
  contains pat s = false <-> ~ occurs pat s.
Proof.
  rewrite <- contains_iff. destruct (contains pat s); intuition congruence.
Qed.

Lemma occurs_app_l (pat a b : str) : occurs pat b -> occurs pat (a ++ b).
Proof.
  intros (pre & post & ->). exists (a ++ pre), post. now rewrite app_assoc.
Qed.

Lemma occurs_app_r (pat a b : str) : occurs pat a -> occurs pat (a ++ b).
Proof.
  intros (pre & post & ->). exists pre, (post ++ b).
  now rewrite <- !app_assoc.
Qed.

Lemma occurs_longer (p q s : str) : occurs (p ++ q) s -> occurs p s.
Proof.
  intros (pre & post & ->). exists pre, (q ++ post).
  now rewrite <- app_assoc.
Qed.

(** *** The first occurrence *)

Lemma before_first_Some (pat s b : str) :
  before_first pat s = Some b -> exists post, s = b ++ pat ++ post.
Proof.
  revert b; induction s as [|c s IH]; intros b; simpl.
  - destruct (startswith pat []) eqn:E; [|discriminate].
    intros [= <-]. now apply startswith_inv in E.
  - destruct (startswith pat (c :: s)) eqn:E.
    + intros [= <-]. now apply startswith_inv in E.
    + destruct (before_first pat s) as [b'|]; [|discriminate].
      intros [= <-]. destruct (IH _ eq_refl) as [post ->]. now exists post.
Qed.

Lemma before_first_min (pat s b : str) :
  before_first pat s = Some b ->
  forall b' post', s = b' ++ pat ++ post' -> length b <= length b'.
Proof.
  revert b; induction s as [|c s IH]; intros b; simpl.
  - destruct (startswith pat []); [|discriminate].
    intros [= <-] *; simpl; lia.
  - destruct (startswith pat (c :: s)) eqn:E.
    + intros [= <-] *; simpl; lia.
    + destruct (before_first pat s) as [b0|]; [|discriminate].
      intros [= <-] b' post' E'. destruct b' as [|c' b'].
      * simpl in E'. rewrite E', startswith_app in E. discriminate.
      * inversion E'; subst. simpl. apply le_n_S. now apply (IH _ eq_refl b' post').
Qed.

Lemma before_first_None (pat s : str) :
  before_first pat s = None <-> ~ occurs pat s.
Proof.
  rewrite <- contains_false_iff.
  induction s as [|c s IH]; simpl.
  - destruct (startswith pat []); simpl; intuition congruence.
  - destruct (startswith pat (c :: s)); simpl; [intuition congruence|].
    rewrite <- IH. destruct (before_first pat s); simpl; intuition congruence.
Qed.

Lemma prefix_same_length {A : Type} (a b x y : list A) :
  a ++ x = b ++ y -> length a = length b -> a = b /\ x = y.
Proof.
  revert b; induction a as [|h a IH]; intros [|h' b] E L; try discriminate.
  - now split.
  - simpl in *. inversion E; subst. destruct (IH b H1) as [-> ->]; [lia|].
    now split.
Qed.

Lemma before_first_intro (pat s b post : str) :
  s = b ++ pat ++ post ->
  (forall b' post', s = b' ++ pat ++ post' -> length b <= length b') ->
  before_first pat s = Some b.
Proof.
  intros E Hmin.
  destruct (before_first pat s) as [b0|] eqn:E0.
  - destruct (before_first_Some _ _ _ E0) as [post0 E1].
    pose proof (before_first_min _ _ _ E0 _ _ E) as L1.
    pose proof (Hmin _ _ E1) as L2.
    rewrite E1 in E. f_equal.
    now destruct (prefix_same_length _ _ _ _ E ltac:(lia)).
  - apply before_first_None in E0. exfalso; apply E0. now exists b, post.
Qed.

(** The text before the first fence holds no fence. *)
Lemma before_first_clean (s b : str) :
  before_first fence s = Some b -> contains fence b = false.
Proof.
  intros H. apply contains_false_iff. intros (pre & post & E).
  destruct (before_first_Some _ _ _ H) as [post' E'].
  assert (L : length b <= length pre).
  { apply (before_first_min _ _ _ H pre (post ++ fence ++ post')).
    rewrite E', E. now rewrite <- !app_assoc. }
  rewrite E in L. rewrite !length_app in L. simpl in L. lia.
Qed.

(** *** [strip] *)

Lemma lstrip_suffix (s : str) : exists a, s = a ++ lstrip s.
Proof.
  induction s as [|c s [a IH]]; [now exists []|].
  unfold lstrip in *; simpl. destruct (is_space c).
  - exists (c :: a). simpl. now f_equal.
  - now exists [].
Qed.

Lemma rstrip_prefix (s : str) : exists b, s = rstrip s ++ b.
Proof.
  unfold rstrip. destruct (lstrip_suffix (rev s)) as [a E].
  exists (rev a). unfold lstrip in E.
  rewrite <- rev_app_distr, <- E. now rewrite rev_involutive.
Qed.

Lemma strip_inside (s : str) : exists a b, s = a ++ strip s ++ b.
Proof.
  unfold strip. destruct (lstrip_suffix s) as [a Ea].
  destruct (rstrip_prefix (lstrip s)) as [b Eb].
  exists a, b. now rewrite <- Eb.
Qed.

Lemma strip_clean (pat s : str) :
  contains pat s = false -> contains pat (strip s) = false.
Proof.
  rewrite !contains_false_iff. intros H Hs; apply H.
  destruct (strip_inside s) as (a & b & E). rewrite E.
  now apply occurs_app_l, occurs_app_r.
Qed.

Lemma lstrip_headed (s : str) : headed (lstrip s).
Proof.
  induction s as [|c s IH]; simpl; [exact I|].
  unfold lstrip in *; simpl. now destruct (is_space c) eqn:E.
Qed.

Lemma headed_lstrip (s : str) : headed s -> lstrip s = s.
Proof. destruct s as [|c s]; simpl; [easy|]. unfold lstrip; simpl. now intros ->. Qed.

Lemma lstrip_idem (s : str) : lstrip (lstrip s) = lstrip s.
Proof. apply headed_lstrip, lstrip_headed. Qed.

Lemma dropwhile_idem (p : ascii -> bool) (s : str) :
  dropwhile p (dropwhile p s) = dropwhile p s.
Proof.
  induction s as [|c s IH]; simpl; [reflexivity|].
  destruct (p c) eqn:E; [exact IH|]. simpl. now rewrite E.
Qed.

Lemma dropwhile_snoc (p : ascii -> bool) (s : str) (c : ascii) :
  p c = false -> dropwhile p (s ++ [c]) = dropwhile p s ++ [c].
Proof.
  intros Hc. induction s as [|d s IH]; simpl.
  - now rewrite Hc.
  - now destruct (p d).
Qed.

Lemma rstrip_headed (s : str) : headed s -> headed (rstrip s).
Proof.
  destruct s as [|c s]; simpl; [easy|]. intros Hc.
  unfold rstrip; simpl. rewrite dropwhile_snoc by assumption.
  now rewrite rev_app_distr.
Qed.

Lemma rstrip_idem (s : str) : rstrip (rstrip s) = rstrip s.
Proof.
  unfold rstrip. now rewrite rev_involutive, dropwhile_idem.
Qed.

Lemma strip_idem (s : str) : strip (strip s) = strip s.
Proof.
  unfold strip.
  rewrite (headed_lstrip (rstrip (lstrip s))).
  - apply rstrip_idem.
  - apply rstrip_headed, lstrip_headed.
Qed.

Lemma strip_lstrip (s : str) : strip (lstrip s) = strip s.
Proof. unfold strip. now rewrite lstrip_idem. Qed.

(** What [lstrip] removes is whitespace. *)
Lemma lstrip_spec (s : str) :
  exists a, s = a ++ lstrip s /\ whitespace_only a.
Proof.
  induction s as [|c s (a & E & W)]; [exists []; split; [reflexivity|constructor]|].
  unfold lstrip in *; cbn [dropwhile]. destruct (is_space c) eqn:Hc.
  - exists (c :: a). split; [cbn [app]; now f_equal|now constructor].
  - exists []. split; [reflexivity|constructor].
Qed.

Lemma rstrip_spec (s : str) :
  exists b, s = rstrip s ++ b /\ whitespace_only b.
Proof.
  unfold rstrip. destruct (lstrip_spec (rev s)) as (a & E & W).
  exists (rev a). split.
  - unfold lstrip in E. rewrite <- rev_app_distr, <- E.
    now rewrite rev_involutive.
  - now apply Forall_rev.
Qed.

(** [strip] removes whitespace at both ends, and nothing else. *)
Lemma strip_spec (s : str) :
  exists a b, s = a ++ strip s ++ b /\ whitespace_only a /\ whitespace_only b.
Proof.
  unfold strip. destruct (lstrip_spec s) as (a & Ea & Wa).
  destruct (rstrip_spec (lstrip s)) as (b & Eb & Wb).
  exists a, b. split; [now rewrite <- Eb|now split].
Qed.

(** A stripped text neither starts nor ends with whitespace. *)
Lemma strip_headed (s : str) : headed (strip s).
Proof. apply rstrip_headed, lstrip_headed. Qed.

Lemma strip_headed_rev (s : str) : headed (rev (strip s)).
Proof.
  unfold strip, rstrip. rewrite rev_involutive.
  exact (lstrip_headed (rev (lstrip s))).
Qed.

(** ** The regular expressions *)

Lemma backtick_eq_ci (c : ascii) : eq_ci "`" c = eq_cs "`" c.
Proof.
  destruct c as [[] [] [] [] [] [] [] []]; reflexivity.
Qed.

Lemma startswith_ci_fence (s : str) :
  startswith_by eq_ci fence s = startswith fence s.
Proof.
  unfold startswith, fence; simpl.
  destruct s as [|c1 [|c2 [|c3 s]]]; simpl;
    now rewrite ?backtick_eq_ci.
Qed.

Lemma space_not_fence (c : ascii) (s : str) :
  is_space c = true -> startswith fence (c :: s) = false.
Proof.
  intros H. unfold startswith, fence; simpl.
  destruct (eq_cs "`" c) eqn:E; [|reflexivity].
  apply eq_cs_true in E; subst c. vm_compute in H. discriminate.
Qed.

Section Matching.
Context {A : Type}.

Lemma lit_ext eqc pat (k k' : str -> option A) :
  (forall s, k s = k' s) -> forall s, Re.lit eqc pat k s = Re.lit eqc pat k' s.
Proof.
  intros H. induction pat as [|a pat IH]; intros s; simpl; [apply H|].
  destruct s as [|c s]; [reflexivity|]. destruct (eqc a c); [apply IH|reflexivity].
Qed.

Lemma star_greedy_ext cls (k k' : str -> option A) :
  (forall s, k s = k' s) ->
  forall s, Re.star_greedy cls k s = Re.star_greedy cls k' s.
Proof.
  intros H. induction s as [|c s IH]; simpl; [apply H|].
  now rewrite IH, H.
Qed.

Lemma search_ext (m m' : str -> option A) :
  (forall s, m s = m' s) -> forall s, Re.search m s = Re.search m' s.
Proof.
  intros H. induction s as [|c s IH]; simpl; rewrite H; [reflexivity|].
  now rewrite IH.
Qed.

(** A literal is a prefix test followed by the continuation. *)
Lemma lit_startswith eqc pat (k : str -> option A) (s : str) :
  Re.lit eqc pat k s
  = if startswith_by eqc pat s then k (skipn (length pat) s) else None.
Proof.
  revert s; induction pat as [|a pat IH]; intros s; simpl; [reflexivity|].
  destruct s as [|c s]; [reflexivity|].
  destruct (eqc a c); simpl; [apply IH|reflexivity].
Qed.
End Matching.

Lemma search_hit {A : Type} (m : str -> option A) (s : str) (r : A) :
  m s = Some r -> Re.search m s = Some r.
Proof. intros H. destruct s; simpl; now rewrite H. Qed.

Lemma search_map {A B : Type} (f : A -> B) (m : str -> option A) (s : str) :
  Re.search (fun x => option_map f (m x)) s = option_map f (Re.search m s).
Proof.
  induction s as [|c s IH]; simpl; destruct (m _); simpl; auto.
Qed.

(** The lazy group followed by the closing fence captures the text before
    the first fence. *)
Lemma lazy_group_before_first {A : Type} eqc (f : str -> A) (s : str) :
  (forall x, startswith_by eqc fence x = startswith fence x) ->
  Re.star_lazy_group Re.cls_dotall
    (fun g => Re.lit eqc fence (fun _ => Some (f g))) s
  = option_map f (before_first fence s).
Proof.
  intros Hc. revert f; induction s as [|c s IH]; intros f;
    cbn [Re.star_lazy_group before_first]; rewrite lit_startswith, Hc.
  - now destruct (startswith fence []).
  - destruct (startswith fence (c :: s)); [reflexivity|].
    unfold Re.cls_dotall at 1. rewrite (IH (fun g => f (c :: g))).
    now destruct (before_first fence s).
Qed.

(** Whitespace given back by the greedy star never uncovers a fence, so the
    star only trims the captured text on the left. *)
Lemma greedy_space_before_first (s : str) :
  Re.star_greedy Re.cls_space (before_first fence) s
  = option_map lstrip (before_first fence s).
Proof.
  induction s as [|c s IH].
  - simpl. now destruct (startswith fence []).
  - cbn [Re.star_greedy].
    destruct (Re.cls_space c) eqn:Hc; unfold Re.cls_space in Hc.
    + rewrite IH. cbn [before_first]. rewrite (space_not_fence c s Hc).
      destruct (before_first fence s) as [b|]; simpl; [|reflexivity].
      unfold lstrip; simpl. now rewrite Hc.
    + cbn [before_first].
      destruct (startswith fence (c :: s)); [reflexivity|].
      destruct (before_first fence s) as [b|]; simpl; [|reflexivity].
      unfold lstrip; simpl. now rewrite Hc.
Qed.

Lemma pattern_block_here eqc eqc' (opener s : str) :
  (forall x, startswith_by eqc' fence x = startswith fence x) ->
  Re.lit eqc opener
    (Re.star_greedy Re.cls_space
       (Re.star_lazy_group Re.cls_dotall
          (fun group1 => Re.lit eqc' fence (fun _ => Some group1)))) s
  = option_map lstrip (block_here eqc opener s).
Proof.
  intros Hc. rewrite lit_startswith. unfold block_here.
  destruct (startswith_by eqc opener s); [|reflexivity].
  rewrite (star_greedy_ext _ _ (before_first fence)).
  - apply greedy_space_before_first.
  - intros x. rewrite (lazy_group_before_first eqc' (fun g => g) x Hc).
    now destruct (before_first fence x).
Qed.

Lemma search_pattern_python (text : str) :
  Re.search pattern_python text
  = option_map lstrip (Re.search (block_here eq_ci fence_python) text).
Proof.
  rewrite <- search_map. apply search_ext. intros s.
  apply pattern_block_here, startswith_ci_fence.
Qed.

Lemma search_pattern_generic (text : str) :
  Re.search pattern_generic text
  = option_map lstrip (Re.search (block_here eq_cs fence) text).
Proof.
  rewrite <- search_map. apply search_ext. intros s.
  now apply pattern_block_here.
Qed.

(** ** Fenced blocks: the search and its declarative reading *)

Section Blocks.
Variable eqc : ascii -> ascii -> bool.
Variable opener : str.
Variable opens : str -> Prop.
Hypothesis opens_length : forall op, opens op -> length op = length opener.
Hypothesis opens_prefix :
  forall s, startswith_by eqc opener s = true <->
            exists op post, s = op ++ post /\ opens op.

Lemma block_here_intro (s op body post : str) :
  s = op ++ body ++ fence ++ post -> opens op ->
  exists b, block_here eqc opener s = Some b.
Proof.
  intros E Hop. unfold block_here.
  assert (P : startswith_by eqc opener s = true).
  { apply opens_prefix. now exists op, (body ++ fence ++ post). }
  rewrite P.
  destruct (before_first fence (skipn (length opener) s)) as [b|] eqn:B;
    [now exists b|].
  apply before_first_None in B. exfalso; apply B.
  exists body, post.
  rewrite E, skipn_app, <- (opens_length op Hop), Nat.sub_diag, skipn_all.
  reflexivity.
Qed.

Lemma block_here_first (s body : str) :
  block_here eqc opener s = Some body -> first_block opens s body.
Proof.
  unfold block_here. destruct (startswith_by eqc opener s) eqn:P; [|discriminate].
  apply opens_prefix in P as (op & rest & E & Hop). subst s.
  rewrite skipn_app, <- (opens_length op Hop), Nat.sub_diag, skipn_all.
  cbn [skipn app]. intros B.
  destruct (before_first_Some _ _ _ B) as [post Er].
  exists [], op, post. split.
  - split; [|assumption]. now rewrite Er.
  - intros pre' op' body' post' [E' Hop'].
    destruct pre' as [|c pre']; [right|left; simpl; lia].
    split; [reflexivity|]. simpl in E'.
    destruct (prefix_same_length _ _ _ _ E') as [-> Er'].
    { now rewrite (opens_length _ Hop), (opens_length _ Hop'). }
    now apply (before_first_min _ _ _ B body' post').
Qed.

Lemma search_first_block (text body : str) :
  Re.search (block_here eqc opener) text = Some body ->
  first_block opens text body.
Proof.
  induction text as [|c text IH]; cbn [Re.search].
  - destruct (block_here eqc opener []) eqn:B; [|discriminate].
    intros [= <-]. now apply block_here_first.
  - destruct (block_here eqc opener (c :: text)) eqn:B.
    + intros [= <-]. now apply block_here_first.
    + intros S. destruct (IH S) as (pre & op & post & [E Hop] & Hmin).
      exists (c :: pre), op, post. split.
      * split; [|assumption]. simpl. now rewrite E.
      * intros pre' op' body' post' [E' Hop'].
        destruct pre' as [|c' pre'].
        -- simpl in E'.
           destruct (block_here_intro _ _ _ _ E' Hop') as [b Hb].
           congruence.
        -- inversion E' as [[Ec Et]]. simpl.
           destruct (Hmin pre' op' body' post') as [L|[L1 L2]];
             [now split| left; lia | right; split; [lia|assumption]].
Qed.

Lemma has_block_search (text : str) :
  has_block opens text ->
  exists body, Re.search (block_here eqc opener) text = Some body.
Proof.
  intros (pre & op & body & post & E & Hop). subst text.
  induction pre as [|c pre IH].
  - destruct (block_here_intro _ _ _ _ (eq_refl (op ++ body ++ fence ++ post)) Hop)
      as [b Hb].
    exists b. now apply search_hit.
  - simpl app. cbn [Re.search].
    destruct (block_here eqc opener _); [eauto|exact IH].
Qed.

Lemma search_None_iff (text : str) :
  Re.search (block_here eqc opener) text = None <-> ~ has_block opens text.
Proof.
  split.
  - intros S Hb. destruct (has_block_search _ Hb) as [b Hb']. congruence.
  - intros Hn. destruct (Re.search (block_here eqc opener) text) as [b|] eqn:S;
      [|reflexivity].
    exfalso; apply Hn. destruct (search_first_block _ _ S)
      as (pre & op & post & Hb & _).
    now exists pre, op, b, post.
Qed.

Lemma first_block_unique (text b1 b2 : str) :
  first_block opens text b1 -> first_block opens text b2 -> b1 = b2.
Proof.
  intros (p1 & o1 & q1 & [E1 H1] & M1) (p2 & o2 & q2 & [E2 H2] & M2).
  pose proof (M1 _ _ _ _ (conj E2 H2)) as L1.
  pose proof (M2 _ _ _ _ (conj E1 H1)) as L2.
  assert (Lp : length p1 = length p2) by lia.
  assert (Lb : length b1 = length b2) by lia.
  rewrite E1 in E2.
  destruct (prefix_same_length _ _ _ _ E2 Lp) as [_ E3].
  destruct (prefix_same_length _ _ _ _ E3) as [_ E4].
  { now rewrite (opens_length _ H1), (opens_length _ H2). }
  now destruct (prefix_same_length _ _ _ _ E4 Lb).
Qed.

Lemma first_block_search (text body : str) :
  first_block opens text body ->
  Re.search (block_here eqc opener) text = Some body.
Proof.
  intros F.
  destruct (has_block_search text) as [b S].
  { destruct F as (pre & op & post & Hb & _). now exists pre, op, body, post. }
  rewrite S. f_equal.
  exact (first_block_unique _ _ _ (search_first_block _ _ S) F).
Qed.
End Blocks.

Lemma opens_generic_prefix (s : str) :
  startswith_by eq_cs fence s = true <->
  exists op post, s = op ++ post /\ opens_generic op.
Proof.
  change (startswith_by eq_cs fence s) with (startswith fence s).
  rewrite startswith_iff. unfold opens_generic. split.
  - intros [post E]. now exists fence, post.
  - intros (op & post & E & ->). now exists post.
Qed.

Lemma opens_exact_prefix (s : str) :
  startswith_by eq_cs fence_python s = true <->
  exists op post, s = op ++ post /\ opens_python_exact op.
Proof.
  change (startswith_by eq_cs fence_python s) with (startswith fence_python s).
  rewrite startswith_iff. unfold opens_python_exact. split.
  - intros [post E]. now exists fence_python, post.
  - intros (op & post & E & ->). now exists post.
Qed.

Lemma startswith_ci_iff (pat s : str) :
  startswith_by eq_ci pat s = true <->
  exists op post, s = op ++ post /\ map lower op = map lower pat.
Proof.
  revert s; induction pat as [|a pat IH]; intros s.
  - simpl. split; [intros _; now exists [], s|reflexivity].
  - destruct s as [|c s]; simpl.
    + split; [discriminate|]. intros (op & post & E & M).
      destruct op; [discriminate M|discriminate E].
    + rewrite andb_true_iff, IH. unfold eq_ci. rewrite Ascii.eqb_eq. split.
      * intros (Hc & op & post & -> & M). exists (c :: op), post.
        simpl. now rewrite M, Hc.
      * intros (op & post & E & M). destruct op as [|c' op]; [discriminate M|].
        simpl in E, M. inversion E; inversion M; subst.
        split; [congruence|]. now exists op, post.
Qed.

Lemma opens_anycase_prefix (s : str) :
  startswith_by eq_ci fence_python s = true <->
  exists op post, s = op ++ post /\ opens_python_anycase op.
Proof. apply startswith_ci_iff. Qed.

Lemma opens_anycase_length (op : str) :
  opens_python_anycase op -> length op = length fence_python.
Proof.
  unfold opens_python_anycase. intros <-. now rewrite length_map.
Qed.

(** ** [str.replace] *)

Lemma replace_absent (old new s : str) :
  old <> [] -> contains old s = false -> replace old new s = s.
Proof.
  intros Hold. unfold replace. destruct old as [|a old]; [congruence|].
  induction s as [|c s IH]; [reflexivity|].
  cbn [contains replace_from]. intros H.
  apply orb_false_iff in H as [H1 H2]. rewrite H1. f_equal. now apply IH.
Qed.

Lemma startswith_fence3 (c1 c2 c3 : ascii) (s : str) :
  startswith fence (c1 :: c2 :: c3 :: s)
  = eq_cs "`" c1 && (eq_cs "`" c2 && eq_cs "`" c3).
Proof. unfold startswith, fence. simpl. now rewrite andb_true_r. Qed.

Lemma startswith_fence_short (s : str) :
  length s < 3 -> startswith fence s = false.
Proof.
  destruct s as [|c1 [|c2 [|c3 s]]]; simpl; try lia; intros _;
    unfold startswith, fence; simpl; now rewrite ?andb_false_r.
Qed.

Lemma startswith_fence_head (c : ascii) (s : str) :
  eq_cs "`" c = false -> startswith fence (c :: s) = false.
Proof. intros H. unfold startswith, fence; simpl. now rewrite H. Qed.

Lemma startswith_fence_second (c d : ascii) (s : str) :
  eq_cs "`" d = false -> startswith fence (c :: d :: s) = false.
Proof.
  intros H. unfold startswith, fence; simpl. now rewrite H, andb_false_r.
Qed.

(** After the removal of the fences at a position that starts none, the
    character kept there does not start a fence of the result. *)
Lemma replace_from_head (c : ascii) (s : str) :
  startswith fence (c :: s) = false ->
  startswith fence (c :: replace_from fence [] 0 s) = false.
Proof.
  destruct s as [|d [|e [|f s]]]; intros H.
  - exact H.
  - cbn [replace_from].
    rewrite (startswith_fence_short [d]) by (simpl; lia).
    apply startswith_fence_short. simpl; lia.
  - cbn [replace_from].
    rewrite (startswith_fence_short [d; e]) by (simpl; lia).
    rewrite (startswith_fence_short [e]) by (simpl; lia).
    exact H.
  - rewrite startswith_fence3 in H.
    cbn [replace_from]. rewrite startswith_fence3.
    destruct (eq_cs "`" c) eqn:C; [|now apply startswith_fence_head].
    destruct (eq_cs "`" d) eqn:D;
      [|simpl; now apply startswith_fence_second].
    destruct (eq_cs "`" e) eqn:E; [discriminate H|]. simpl.
    rewrite (startswith_fence_head e (f :: s) E).
    rewrite startswith_fence3. now rewrite C, D, E.
Qed.

(** Removing the fences leaves none behind. *)
Lemma replace_from_clean (s : str) (skip : nat) :
  contains fence (replace_from fence [] skip s) = false.
Proof.
  revert skip; induction s as [|c s IH]; intros skip; [reflexivity|].
  cbn [replace_from]. destruct skip as [|k]; [|apply IH].
  destruct (startswith fence (c :: s)) eqn:E; [apply IH|].
  cbn [contains]. now rewrite IH, replace_from_head.
Qed.

Lemma replace_fence_clean (s : str) :
  contains fence (replace fence [] s) = false.
Proof. apply replace_from_clean. Qed.

(** ** [extract_python_code] *)

Lemma search_Some_inv {A : Type} (m : str -> option A) (s : str) (r : A) :
  Re.search m s = Some r -> exists pre s', s = pre ++ s' /\ m s' = Some r.
Proof.
  induction s as [|c s IH]; cbn [Re.search].
  - destruct (m []) eqn:E; [|discriminate]. intros [= <-]. now exists [], [].
  - destruct (m (c :: s)) eqn:E.
    + intros [= <-]. now exists [], (c :: s).
    + intros S. destruct (IH S) as (pre & s' & -> & H).
      now exists (c :: pre), s'.
Qed.

Lemma search_block_clean eqc (opener text b : str) :
  Re.search (block_here eqc opener) text = Some b -> contains fence b = false.
Proof.
  intros S. destruct (search_Some_inv _ _ _ S) as (pre & s' & _ & H).
  unfold block_here in H. destruct (startswith_by eqc opener s'); [|discriminate].
  now apply before_first_clean in H.
Qed.

Lemma has_block_occurs (opens : str -> Prop) (text : str) :
  has_block opens text -> occurs fence text.
Proof.
  intros (pre & op & body & post & -> & _).
  exists (pre ++ op ++ body), post. now rewrite <- !app_assoc.
Qed.

Lemma search_python_None (text : str) :
  ~ has_block opens_python_anycase text ->
  Re.search pattern_python text = None.
Proof.
  intros H. rewrite search_pattern_python.
  apply (search_None_iff eq_ci fence_python opens_python_anycase
           opens_anycase_length opens_anycase_prefix) in H.
  now rewrite H.
Qed.

Lemma opens_generic_length (op : str) :
  opens_generic op -> length op = length fence.
Proof. now intros ->. Qed.

Lemma opens_exact_length (op : str) :
  opens_python_exact op -> length op = length fence_python.
Proof. now intros ->. Qed.

Lemma search_generic_None (text : str) :
  ~ has_block opens_generic text ->
  Re.search pattern_generic text = None.
Proof.
  intros H. rewrite search_pattern_generic.
  apply (search_None_iff eq_cs fence opens_generic
           opens_generic_length opens_generic_prefix) in H.
  now rewrite H.
Qed.

(** Without any fence the text is only stripped. *)
Lemma extract_without_fence (text : str) :
  contains fence text = false -> extract_python_code text = strip text.
Proof.
  intros H. unfold extract_python_code.
  assert (Hn : ~ occurs fence text) by now apply contains_false_iff.
  rewrite search_python_None, search_generic_None
    by (intros Hb; apply Hn; exact (has_block_occurs _ _ Hb)).
  rewrite (replace_absent fence_python); [|discriminate|].
  - now rewrite replace_absent.
  - apply contains_false_iff. intros Ho. apply Hn.
    exact (occurs_longer fence (py "python") text Ho).
Qed.

Lemma extract_clean (text : str) :
  contains fence (extract_python_code text) = false.
Proof.
  unfold extract_python_code.
  rewrite search_pattern_python, search_pattern_generic.
  destruct (Re.search (block_here eq_ci fence_python) text) as [b|] eqn:S1;
    cbn [option_map].
  - rewrite strip_lstrip. apply strip_clean. exact (search_block_clean _ _ _ _ S1).
  - destruct (Re.search (block_here eq_cs fence) text) as [b|] eqn:S2;
      cbn [option_map].
    + rewrite strip_lstrip. apply strip_clean.
      exact (search_block_clean _ _ _ _ S2).
    + apply strip_clean, replace_fence_clean.
Qed.

Lemma extract_stripped (text : str) :
  strip (extract_python_code text) = extract_python_code text.
Proof.
  unfold extract_python_code.
  destruct (Re.search pattern_python text);
    [|destruct (Re.search pattern_generic text)]; apply strip_idem.
Qed.

(** C5, as the code has it: the [```python] opener is recognised in any
    letter case. If the response holds a block opened by [```python] (in
    any letter case) and closed by a fence, the result is the stripped
    content of the first such block; otherwise, if it holds a generic
    fenced block, the stripped content of the first of those; otherwise the
    whole text with [```python] and then the fences removed, stripped. *)
Theorem C5_extract_python_code_blocks :
  forall text : str,
    (forall body, first_block opens_python_anycase text body ->
                  extract_python_code text = strip body) /\
    (~ has_block opens_python_anycase text ->
     forall body, first_block opens_generic text body ->
                  extract_python_code text = strip body) /\
    (~ has_block opens_python_anycase text -> ~ has_block opens_generic text ->
     extract_python_code text
     = strip (replace fence [] (replace fence_python [] text))).
Proof.
  intros text. repeat split.
  - intros body F. unfold extract_python_code.
    rewrite search_pattern_python.
    rewrite (first_block_search eq_ci fence_python opens_python_anycase
               opens_anycase_length opens_anycase_prefix _ _ F).
    apply strip_lstrip.
  - intros Hn body F. unfold extract_python_code.
    rewrite (search_python_None _ Hn), search_pattern_generic.
    rewrite (first_block_search eq_cs fence opens_generic
               opens_generic_length opens_generic_prefix _ _ F).
    apply strip_lstrip.
  - intros Hn Hg. unfold extract_python_code.
    now rewrite (search_python_None _ Hn), (search_generic_None _ Hg).
Qed.

(** The three cases of C5 on concrete responses. *)
Lemma C5_extract_python_code_blocks_witness :
  extract_python_code
    (py "Here:" ++ nl ++ py "```PYTHON" ++ nl ++ py "x = 1" ++ nl ++ py "``` ```y```")
  = strip (nl ++ py "x = 1" ++ nl)
  /\ extract_python_code (py "see ``` a = 2 ``` and ```b```") = strip (py " a = 2 ")
  /\ extract_python_code (py "```python print(3) ")
     = strip (replace fence [] (replace fence_python [] (py "```python print(3) "))).
Proof.
  split; [|split].
  - apply (proj1 (C5_extract_python_code_blocks _)).
    apply (search_first_block eq_ci fence_python opens_python_anycase
             opens_anycase_length opens_anycase_prefix).
    vm_compute. reflexivity.
  - apply (proj1 (proj2 (C5_extract_python_code_blocks _))).
    + apply (search_None_iff eq_ci fence_python opens_python_anycase
               opens_anycase_length opens_anycase_prefix).
      vm_compute. reflexivity.
    + apply (search_first_block eq_cs fence opens_generic
               opens_generic_length opens_generic_prefix).
      vm_compute. reflexivity.
  - apply (proj2 (proj2 (C5_extract_python_code_blocks _))).
    + apply (search_None_iff eq_ci fence_python opens_python_anycase
               opens_anycase_length opens_anycase_prefix).
      vm_compute. reflexivity.
    + apply (search_None_iff eq_cs fence opens_generic
               opens_generic_length opens_generic_prefix).
      vm_compute. reflexivity.
Defined.

(** C5 as stated reads the opener as the exact text [```python]. The
    response [```Python\nx```] then holds no such block and its first
    generic block has the content [Python\nx], yet the code returns [x]. *)
Lemma C5_counterexample_capitalised_opener :
  ~ extract_spec opens_python_exact.
Proof.
  intros H.
  destruct (H (py "```Python" ++ nl ++ py "x```")) as (_ & H2 & _).
  specialize (H2
    ltac:(apply (search_None_iff eq_cs fence_python opens_python_exact
                   opens_exact_length opens_exact_prefix);
          vm_compute; reflexivity)
    (py "Python" ++ nl ++ py "x")
    ltac:(apply (search_first_block eq_cs fence opens_generic
                   opens_generic_length opens_generic_prefix);
          vm_compute; reflexivity)).
  vm_compute in H2. discriminate H2.
Qed.

(** C9: the result of [extract_python_code] holds no fence and neither
    starts nor ends with a whitespace character, so extracting again
    changes nothing; a response without any fence is returned with the
    whitespace at its two ends removed and nothing else: what was cut
    before and after the result is whitespace only. *)
Theorem C9_extract_python_code_idempotent :
  forall text : str,
    ~ occurs fence (extract_python_code text) /\
    headed (extract_python_code text) /\
    headed (rev (extract_python_code text)) /\
    extract_python_code (extract_python_code text) = extract_python_code text /\
    (~ occurs fence text ->
     exists a b,
       text = a ++ extract_python_code text ++ b /\
       whitespace_only a /\ whitespace_only b).
Proof.
  intros text.
  split; [apply contains_false_iff, extract_clean|].
  split; [rewrite <- extract_stripped; apply strip_headed|].
  split; [rewrite <- extract_stripped; apply strip_headed_rev|].
  split.
  - rewrite (extract_without_fence _ (extract_clean text)).
    apply extract_stripped.
  - intros H. apply contains_false_iff in H.
    rewrite (extract_without_fence _ H). apply strip_spec.
Qed.

Lemma C9_extract_python_code_idempotent_witness :
  exists a b,
    py "  print('hi')  " = a ++ extract_python_code (py "  print('hi')  ") ++ b /\
    whitespace_only a /\ whitespace_only b.
Proof.
  apply (proj2 (proj2 (proj2 (proj2 (C9_extract_python_code_idempotent _))))).
  apply contains_false_iff. vm_compute. reflexivity.
Defined.

(** The result on a response of blanks around a call. *)
Example extract_unfenced :
  extract_python_code (py "  print('hi')  ") = py "print('hi')".
Proof. vm_compute. reflexivity. Qed.

(** ** The prompt builder *)

Lemma str_eqb_eq (a b : str) : str_eqb a b = true <-> a = b.
Proof.
  unfold str_eqb. rewrite andb_true_iff, Nat.eqb_eq, startswith_iff. split.
  - intros [L [post E]]. subst b. rewrite length_app in L.
    destruct post; [now rewrite app_nil_r|simpl in L; lia].
  - intros <-. split; [reflexivity|]. exists []. now rewrite app_nil_r.
Qed.

Lemma str_eqb_refl (a : str) : str_eqb a a = true.
Proof. now apply str_eqb_eq. Qed.

(** No column carries the label: the selection is empty. *)
Lemma filter_label_none (cols : list Column) (col : str) :
  ~ In col (map col_name cols) ->
  filter (fun c => str_eqb (col_name c) col) cols = [].
Proof.
  induction cols as [|c0 cols IH]; [reflexivity|].
  cbn [map filter]. intros H.
  destruct (str_eqb (col_name c0) col) eqn:E.
  - apply str_eqb_eq in E. exfalso. apply H. now left.
  - apply IH. intros I. apply H. now right.
Qed.

(** With distinct labels, a label selects its own column and no other. *)
Lemma filter_label_own (cols : list Column) (c : Column) :
  NoDup (map col_name cols) -> In c cols ->
  filter (fun c' => str_eqb (col_name c') (col_name c)) cols = [c].
Proof.
  induction cols as [|c0 cols IH]; [easy|].
  cbn [map filter]. intros N H. inversion N as [|? ? Hn N']; subst.
  destruct (str_eqb (col_name c0) (col_name c)) eqn:E.
  - apply str_eqb_eq in E. destruct H as [->|H].
    + now rewrite filter_label_none.
    + exfalso. apply Hn. rewrite E. now apply in_map.
  - destruct H as [->|H]; [now rewrite str_eqb_refl in E|auto].
Qed.

Lemma getitem_own (df : DataFrame) (c : Column) :
  NoDup (df_columns df) -> In c (df_cols df) ->
  getitem df (col_name c) = Ok (Series (col_cells c)).
Proof.
  intros N H. unfold getitem. now rewrite (filter_label_own _ _ N H).
Qed.

(** The sample of a Series is its first non-null cell. *)
Lemma sample_val_first_non_null (df : DataFrame) (col : str)
  (cells : list cell) :
  sample_val df col (Series cells)
  = match first_non_null cells with Some v => v | None => Ok (py "N/A") end.
Proof.
  cbn [sample_val].
  induction cells as [|[v|] cells IH]; [reflexivity|reflexivity|exact IH].
Qed.

Lemma column_line_entry (c : Column) (sample : str) :
  first_non_null (col_cells c) = Some (Ok sample) \/
  (first_non_null (col_cells c) = None /\ sample = py "N/A") ->
  column_line (col_name c) (col_dtype c) sample = column_entry c.
Proof.
  unfold column_line, column_entry, shown_sample.
  intros [->|[-> ->]]; reflexivity.
Qed.

Lemma columns_loop_entries (df : DataFrame) :
  NoDup (df_columns df) ->
  forall cols acc,
    (forall c, In c cols -> In c (df_cols df) /\ renders c) ->
    columns_loop df (combine (map col_name cols) (map col_dtype cols)) acc
    = Ok (acc ++ map column_entry cols).
Proof.
  intros N. induction cols as [|c cols IH]; intros acc H.
  - cbn. now rewrite app_nil_r.
  - cbn [map combine columns_loop].
    destruct (H c (or_introl eq_refl)) as [I R].
    rewrite (getitem_own df c N I), sample_val_first_non_null.
    destruct (first_non_null (col_cells c)) as [[v|e]|] eqn:F.
    + rewrite IH by (intros c' I'; apply H; now right).
      rewrite <- app_assoc. cbn [app].
      now rewrite (column_line_entry c v) by (now left).
    + now destruct (R e).
    + rewrite IH by (intros c' I'; apply H; now right).
      rewrite <- app_assoc. cbn [app].
      now rewrite (column_line_entry c (py "N/A")) by (now right).
Qed.

(** With distinct labels and samples that print, the column lines are
    built, one per column. *)
Lemma columns_list_entries (df : DataFrame) :
  NoDup (df_columns df) ->
  (forall c, In c (df_cols df) -> renders c) ->
  columns_list df = Ok (map column_entry (df_cols df)).
Proof.
  intros N R. unfold columns_list, df_columns, df_dtypes.
  now rewrite (columns_loop_entries df N (df_cols df) []) by auto.
Qed.

Lemma shown_sample_length (c : Column) : length (shown_sample c) <= 50.
Proof.
  unfold shown_sample. destruct (first_non_null (col_cells c)) as [[v|e]|].
  - rewrite length_firstn. lia.
  - cbn. lia.
  - cbn. lia.
Qed.

(** ** The retry ladder *)

Lemma llm_calls_app (a b : list event) :
  llm_calls (a ++ b) = llm_calls a ++ llm_calls b.
Proof.
  induction a as [|e a IH]; [reflexivity|].
  destruct e; simpl; now rewrite ?IH.
Qed.

Lemma on_error_warning i t msg ss ss' wn :
  on_error i t msg ss = Some (ss', wn) ->
  forall a j req evs,
    llm_calls (Spinner_generating a t :: ChatCompletion j req :: wn :: evs)
    = (j, req) :: llm_calls evs.
Proof.
  unfold on_error.
  destruct (_ && _); [intros [= _ <-]; reflexivity|].
  destruct (_ && _); [intros [= _ <-]; reflexivity|discriminate].
Qed.

Lemma code_interpret_calls w code :
  llm_calls (snd (code_interpret w code)) = [].
Proof.
  unfold code_interpret.
  destruct (run_code w code) as [e|]; [destruct (error e)|]; reflexivity.
Qed.

(** The loop starts by calling the endpoint for the first tier left. *)
Lemma retry_loop_first_call w p um i t rest ss r ss' evs :
  retry_loop w p um ((i, t) :: rest) ss = (r, ss', evs) ->
  exists tail, llm_calls evs = (i, chat_request ss p um t) :: tail.
Proof.
  cbn [retry_loop].
  destruct (chat_create w i _) as [resp|msg].
  - intros [= _ _ <-]. now exists [].
  - destruct (on_error i t msg ss) as [[ss1 wn]|] eqn:E.
    + destruct (retry_loop w p um rest ss1) as [[r1 s1] evs1].
      intros [= _ _ <-]. exists (llm_calls evs1).
      exact (on_error_warning _ _ _ _ _ _ E _ _ _ _).
    + intros [= _ _ <-]. now exists [].
Qed.

(** Every attempt of the loop is the start of the loop over the tiers that
    were left, in the session of that moment. *)
Lemma retry_loop_attempt w p um :
  forall todo ss r ss' evs k i req,
    retry_loop w p um todo ss = (r, ss', evs) ->
    nth_error (llm_calls evs) k = Some (i, req) ->
    exists ssk t rest evsk,
      skipn k todo = (i, t) :: rest /\
      req = chat_request ssk p um t /\
      retry_loop w p um ((i, t) :: rest) ssk = (r, ss', evsk) /\
      llm_calls evs = firstn k (llm_calls evs) ++ llm_calls evsk.
Proof.
  induction todo as [|[i0 t0] todo IH]; intros ss r ss' evs k i req H N.
  - cbn in H. injection H as _ _ <-. now destruct k.
  - destruct k as [|k].
    + destruct (retry_loop_first_call _ _ _ _ _ _ _ _ _ _ H) as [tail E].
      rewrite E in N. injection N as <- <-.
      now exists ss, t0, todo, evs.
    + cbn [retry_loop] in H.
      destruct (chat_create w i0 _) as [resp|msg].
      { injection H as _ _ <-. now destruct k. }
      destruct (on_error i0 t0 msg ss) as [[ss1 wn]|] eqn:E;
        [|injection H as _ _ <-; now destruct k].
      destruct (retry_loop w p um todo ss1) as [[r1 s1] evs1] eqn:L.
      injection H as <- <- <-.
      pose proof (on_error_warning _ _ _ _ _ _ E (i0 + 1) i0
                    (chat_request ss p um t0) evs1) as W.
      cbn [app] in W, N |- *. rewrite W in N |- *.
      cbn [nth_error] in N.
      destruct (IH _ _ _ _ _ _ _ L N) as (ssk & t & rest & evsk & S1 & S2 & S3 & S4).
      exists ssk, t, rest, evsk. repeat split; try assumption.
      cbn [firstn app]. now rewrite <- S4.
Qed.

(** What [chat_with_llm] adds around the loop. *)
Lemma chat_with_llm_loop w ss um dp df out ss' evs :
  chat_with_llm w ss um dp df = (out, ss', evs) ->
  (llm_calls evs = [] /\ exists e,
     out = Returned (None, e) /\ In (Error_communicating e) evs) \/
  (exists lines r evsl,
    columns_list df = Ok lines /\
    retry_loop w (system_prompt dp (join nl lines)) um
      (enumerate token_attempts) ss = (r, ss', evsl) /\
    llm_calls evs = llm_calls evsl /\ loop_reply r out evs) \/
  (exists e,
    columns_list df = Raise e /\ out = Propagated e /\ ss' = ss /\ evs = []).
Proof.
  unfold chat_with_llm.
  destruct (columns_list df) as [lines|e0].
  2:{ intros [= <- <- <-]. right. right. now exists e0. }
  set (p := system_prompt dp (join nl lines)).
  unfold chat_try.
  destruct (openai_new w base_url (openrouter_api_key ss)) as [[]|e].
  2:{ intros [= <- _ <-]. left. split; [reflexivity|].
      exists e. split; [reflexivity|now left]. }
  destruct (retry_loop w p um (enumerate token_attempts) ss)
    as [[r s1] evsl] eqn:L.
  intros H. right. left. exists lines, r, evsl. split; [reflexivity|]. fold p.
  destruct r as [[resp|]|e].
  - destruct (code_interpret w (extract_python_code resp)) as [cr evs2] eqn:C.
    injection H as <- <- <-. split; [exact L|split].
    + rewrite llm_calls_app. cbn [llm_calls].
      change evs2 with (snd (cr, evs2)). rewrite <- C, code_interpret_calls.
      now rewrite app_nil_r.
    + now exists cr.
  - injection H as <- <- <-. split; [exact L|split].
    + rewrite llm_calls_app. cbn [llm_calls]. now rewrite app_nil_r.
    + split; [reflexivity|]. apply in_or_app; right; now left.
  - injection H as <- <- <-. split; [exact L|split].
    + rewrite llm_calls_app. cbn [llm_calls]. now rewrite app_nil_r.
    + split; [reflexivity|]. apply in_or_app; right; now left.
Qed.

Lemma nth_error_firstn_length {A : Type} (l : list A) (k : nat) (x : A) :
  nth_error l k = Some x -> length (firstn k l) = k.
Proof.
  intros H. rewrite length_firstn. apply Nat.min_l.
  apply Nat.lt_le_incl, nth_error_Some. congruence.
Qed.

(** The two combined: an attempt of a run, seen as a start of the loop. *)
Lemma chat_with_llm_attempt w ss um dp df out ss' evs k i req :
  chat_with_llm w ss um dp df = (out, ss', evs) ->
  nth_error (llm_calls evs) k = Some (i, req) ->
  exists p ssk t rest r evsk,
    skipn k (enumerate token_attempts) = (i, t) :: rest /\
    req = chat_request ssk p um t /\
    retry_loop w p um ((i, t) :: rest) ssk = (r, ss', evsk) /\
    length (llm_calls evs) = k + length (llm_calls evsk) /\
    (forall j, nth_error (llm_calls evs) (k + j) = nth_error (llm_calls evsk) j) /\
    loop_reply r out evs /\
    exists lines,
      columns_list df = Ok lines /\ p = system_prompt dp (join nl lines).
Proof.
  intros H N.
  destruct (chat_with_llm_loop _ _ _ _ _ _ _ _ H)
    as [[E _]|[(lines & r & evsl & CL & L & E & R)|(e & _ & _ & _ & E)]].
  { rewrite E in N. now destruct k. }
  2:{ subst evs. now destruct k. }
  rewrite E in N.
  destruct (retry_loop_attempt _ _ _ _ _ _ _ _ _ _ _ L N)
    as (ssk & t & rest & evsk & S1 & S2 & S3 & S4).
  exists (system_prompt dp (join nl lines)), ssk, t, rest, r, evsk.
  repeat split; try assumption; [| |now exists lines].
  - rewrite E, S4 at 1. rewrite length_app.
    now rewrite (nth_error_firstn_length _ _ _ N).
  - intros j. rewrite E, S4.
    rewrite nth_error_app2; rewrite (nth_error_firstn_length _ _ _ N); [|lia].
    f_equal. lia.
Qed.

(** *** One pass through the loop body *)

Lemma on_error_quota i t msg ss :
  contains (py "402") msg = true -> i < 2 ->
  on_error i t msg ss = Some (ss, Warning_credit_limit t).
Proof.
  intros H L. unfold on_error. rewrite H.
  replace (i <? length token_attempts - 1) with true; [reflexivity|].
  symmetry. apply Nat.ltb_lt. simpl. lia.
Qed.

Lemma on_error_switch i t msg ss :
  contains (py "402") msg && (i <? 2) = false ->
  contains (py "429") msg || contains (py "50") msg = true ->
  model_differs (model_name ss) gemini_free = true ->
  on_error i t msg ss
  = Some (mkSession (openrouter_api_key ss) (Some gemini_free),
          Warning_model_busy (model_name ss)).
Proof.
  intros H1 H2 H3. unfold on_error.
  change (length token_attempts - 1) with 2. now rewrite H1, H2, H3.
Qed.

Lemma on_error_reraise i t msg ss :
  contains (py "402") msg && (i <? 2) = false ->
  (contains (py "429") msg || contains (py "50") msg)
  && model_differs (model_name ss) gemini_free = false ->
  on_error i t msg ss = None.
Proof.
  intros H1 H2. unfold on_error.
  change (length token_attempts - 1) with 2. now rewrite H1, H2.
Qed.

(** [continue] with a tier left: the next attempt is made, in the session
    the handler leaves. *)
Lemma retry_step_continue w p um i t i' t' rest ss msg ss1 wn r ss' evs :
  chat_create w i (chat_request ss p um t) = Raise msg ->
  on_error i t msg ss = Some (ss1, wn) ->
  retry_loop w p um ((i, t) :: (i', t') :: rest) ss = (r, ss', evs) ->
  exists evs1 tail,
    retry_loop w p um ((i', t') :: rest) ss1 = (r, ss', evs1) /\
    llm_calls evs
    = (i, chat_request ss p um t) :: (i', chat_request ss1 p um t') :: tail.
Proof.
  intros F E. cbn [retry_loop]. rewrite F, E.
  change (match chat_create w i' (chat_request ss1 p um t') with
          | Ok llm_response => _ | Raise error_msg => _ end)
    with (retry_loop w p um ((i', t') :: rest) ss1).
  destruct (retry_loop w p um ((i', t') :: rest) ss1) as [[r1 s1] evs1] eqn:L.
  intros [= <- <- <-].
  destruct (retry_loop_first_call _ _ _ _ _ _ _ _ _ _ L) as [tail T].
  exists evs1, tail. split; [reflexivity|].
  rewrite <- T. exact (on_error_warning _ _ _ _ _ _ E _ _ _ _).
Qed.

(** [continue] on the last tier: the loop ends with [llm_response] still
    [None]. *)
Lemma retry_step_exhausted w p um i t ss msg ss1 wn r ss' evs :
  chat_create w i (chat_request ss p um t) = Raise msg ->
  on_error i t msg ss = Some (ss1, wn) ->
  retry_loop w p um [(i, t)] ss = (r, ss', evs) ->
  r = Ok None /\ ss' = ss1 /\ llm_calls evs = [(i, chat_request ss p um t)].
Proof.
  intros F E. cbn [retry_loop]. rewrite F, E. intros [= <- <- <-].
  repeat split. exact (on_error_warning _ _ _ _ _ _ E _ _ _ _).
Qed.

(** [raise e]: the loop is left at once. *)
Lemma retry_step_reraise w p um i t rest ss msg r ss' evs :
  chat_create w i (chat_request ss p um t) = Raise msg ->
  on_error i t msg ss = None ->
  retry_loop w p um ((i, t) :: rest) ss = (r, ss', evs) ->
  r = Raise msg /\ ss' = ss /\ llm_calls evs = [(i, chat_request ss p um t)].
Proof.
  intros F E. cbn [retry_loop]. rewrite F, E. now intros [= <- <- <-].
Qed.

(** Once the session is on the free Gemini model it stays there. *)
Lemma retry_loop_keeps_gemini w p um :
  forall todo ss r ss' evs,
    model_name ss = Some gemini_free ->
    retry_loop w p um todo ss = (r, ss', evs) ->
    model_name ss' = Some gemini_free.
Proof.
  induction todo as [|[i t] todo IH]; intros ss r ss' evs G.
  - now intros [= _ <- _].
  - cbn [retry_loop]. destruct (chat_create w i _) as [resp|msg].
    + now intros [= _ <- _].
    + destruct (on_error i t msg ss) as [[ss1 wn]|] eqn:E;
        [|now intros [= _ <- _]].
      destruct (retry_loop w p um todo ss1) as [[r1 s1] evs1] eqn:L.
      intros [= _ <- _].
      apply (IH ss1 r1 s1 evs1); [|exact L].
      unfold on_error in E.
      destruct (_ && _) in E; [injection E as <- _; exact G|].
      destruct (_ && _) in E; [injection E as <- _; reflexivity|discriminate].
Qed.

(** The tiers left at the [k]-th attempt. *)
Lemma ladder_suffix k i t rest :
  skipn k (enumerate token_attempts) = (i, t) :: rest ->
  i = k /\
  ((k = 0 /\ t = 2000%Z /\ rest = [(1, 500%Z); (2, 200%Z)]) \/
   (k = 1 /\ t = 500%Z /\ rest = [(2, 200%Z)]) \/
   (k = 2 /\ t = 200%Z /\ rest = [])).
Proof.
  destruct k as [|[|[|k]]]; cbn; intros H;
    [injection H as <- <- <-; auto 6 ..|destruct k; discriminate H].
Qed.

(** *** A failed attempt within a run *)

(** What follows a failed attempt is decided by the handler alone. *)
Lemma failing_attempt w ss um dp df out ss' evs k req msg :
  chat_with_llm w ss um dp df = (out, ss', evs) ->
  attempt_fails w evs k req msg ->
  exists ssk p t,
    nth_error token_attempts k = Some t /\
    req = chat_request ssk p um t /\
    match on_error k t msg ssk with
    | Some (ss1, _) =>
        (k < 2 ->
         exists t', nth_error token_attempts (S k) = Some t' /\
                    attempt_made evs (S k) (chat_request ss1 p um t') /\
                    (model_name ss1 = Some gemini_free ->
                     model_name ss' = Some gemini_free)) /\
        (k = 2 ->
         last_attempt evs k /\ ss' = ss1 /\
         out = Returned (None, py "Failed to generate LLM response.") /\
         In Error_failed_response evs)
    | None =>
        last_attempt evs k /\ ss' = ssk /\
        out = Returned (None, msg) /\ In (Error_communicating msg) evs
    end.
Proof.
  intros H [N F].
  destruct (chat_with_llm_attempt _ _ _ _ _ _ _ _ _ _ _ H N)
    as (p & ssk & t & rest & r & evsk & S1 & S2 & S3 & S4 & S5 & S6 & _).
  exists ssk, p, t. rewrite S2 in F.
  destruct (ladder_suffix _ _ _ _ S1) as [_ K].
  split; [|split; [exact S2|]].
  { destruct K as [(-> & -> & _)|[(-> & -> & _)|(-> & -> & _)]]; reflexivity. }
  destruct (on_error k t msg ssk) as [[ss1 wn]|] eqn:E.
  - destruct K as [(-> & -> & ->)|[(-> & -> & ->)|(-> & -> & ->)]].
    + split; [intros _|intros [=]].
      destruct (retry_step_continue _ _ _ _ _ _ _ _ _ _ _ _ _ _ _ F E S3)
        as (evs1 & tail & L1 & C1).
      exists 500%Z. split; [reflexivity|split].
      * unfold attempt_made. pose proof (S5 1) as Q. cbn [Nat.add] in Q.
        rewrite Q, C1. reflexivity.
      * intros G. exact (retry_loop_keeps_gemini _ _ _ _ _ _ _ _ G L1).
    + split; [intros _|intros [=]].
      destruct (retry_step_continue _ _ _ _ _ _ _ _ _ _ _ _ _ _ _ F E S3)
        as (evs1 & tail & L1 & C1).
      exists 200%Z. split; [reflexivity|split].
      * unfold attempt_made. pose proof (S5 1) as Q. cbn [Nat.add] in Q.
        rewrite Q, C1. reflexivity.
      * intros G. exact (retry_loop_keeps_gemini _ _ _ _ _ _ _ _ G L1).
    + split; [lia|intros _].
      destruct (retry_step_exhausted _ _ _ _ _ _ _ _ _ _ _ _ F E S3)
        as (-> & -> & C1).
      unfold last_attempt. rewrite S4, C1.
      destruct S6 as [-> I]. now repeat split.
  - destruct (retry_step_reraise _ _ _ _ _ _ _ _ _ _ _ F E S3)
      as (-> & -> & C1).
    unfold last_attempt. rewrite S4, C1.
    destruct S6 as [-> I]. repeat split; [simpl; lia|assumption].
Qed.

Lemma no_next_attempt evs k req :
  last_attempt evs k -> ~ attempt_made evs (S k) req.
Proof.
  unfold last_attempt, attempt_made. intros L N.
  assert (S k < length (llm_calls evs)) by (apply nth_error_Some; congruence).
  lia.
Qed.

(** ** The claims on the retry ladder *)

Lemma retry_loop_calls w p um :
  forall todo ss r ss' evs,
    retry_loop w p um todo ss = (r, ss', evs) ->
    map (fun c => (fst c, max_tokens (snd c))) (llm_calls evs)
    = firstn (length (llm_calls evs)) todo.
Proof.
  induction todo as [|[i t] todo IH]; intros ss r ss' evs.
  - now intros [= _ _ <-].
  - cbn [retry_loop]. destruct (chat_create w i _) as [resp|msg].
    + now intros [= _ _ <-].
    + destruct (on_error i t msg ss) as [[ss1 wn]|] eqn:E;
        [|now intros [= _ _ <-]].
      destruct (retry_loop w p um todo ss1) as [[r1 s1] evs1] eqn:L.
      intros [= _ _ <-].
      rewrite (on_error_warning _ _ _ _ _ _ E). cbn [map length firstn fst snd].
      now rewrite (IH _ _ _ _ L).
Qed.

(** C1: a run makes at most three chat-completion calls; the [i]-th call
    carries the [i]-th token limit of the ladder 2000, 500, 200, and the
    calls are numbered in that order. *)
Theorem C1_at_most_three_attempts_in_ladder_order :
  forall w ss user_message dataset_path df,
    let calls :=
      llm_calls (events (chat_with_llm w ss user_message dataset_path df)) in
    length calls <= 3 /\
    map (fun c => max_tokens (snd c)) calls
    = firstn (length calls) [2000; 500; 200]%Z /\
    map fst calls = seq 0 (length calls).
Proof.
  intros w ss um dp df calls. subst calls.
  destruct (chat_with_llm w ss um dp df) as [[out ss'] evs] eqn:H.
  unfold events; cbn [snd].
  destruct (chat_with_llm_loop _ _ _ _ _ _ _ _ H)
    as [[E _]|[(lines & r & evsl & _ & L & E & _)|(e & _ & _ & _ & E)]];
    rewrite E; [simpl; repeat split; lia| |simpl; repeat split; lia].
  pose proof (retry_loop_calls _ _ _ _ _ _ _ _ L) as C.
  assert (Len : length (llm_calls evsl) <= 3).
  { apply (f_equal (@length _)) in C.
    rewrite length_map, length_firstn in C. cbn in C. lia. }
  split; [exact Len|].
  split.
  - transitivity (map snd (map (fun c => (fst c, max_tokens (snd c)))
                                 (llm_calls evsl)));
      [now rewrite map_map|rewrite C].
    now destruct (length (llm_calls evsl)) as [|[|[|[|n]]]].
  - transitivity (map fst (map (fun c => (fst c, max_tokens (snd c)))
                                 (llm_calls evsl)));
      [now rewrite map_map|rewrite C].
    destruct (length (llm_calls evsl)) as [|[|[|[|n]]]]; try reflexivity; lia.
Qed.

Lemma run_split (x : run) : x = (returned x, final_session x, events x).
Proof. now destruct x as [[? ?] ?]. Qed.

(** C2, as the code has it: the second retryable branch is taken by error
    texts holding "429" or "50". A failed attempt whose error text holds
    none of "402", "429" and "50" is re-raised: it is the last attempt and
    [chat_with_llm] returns [None] with the error text, which it also
    displays. Conversely a failed attempt is followed by another only
    through one of the two branches: "402" before the last tier, or
    "429"/"50" under a model other than the free Gemini one. *)
Theorem C2_unclassified_error_is_reraised :
  forall w ss user_message dataset_path df k req msg,
    let x : run := chat_with_llm w ss user_message dataset_path df in
    attempt_fails w (events x) k req msg ->
    (contains (py "402") msg = false ->
     contains (py "429") msg = false ->
     contains (py "50") msg = false ->
     last_attempt (events x) k /\
     returned x = Returned (None, msg) /\
     In (Error_communicating msg) (events x)) /\
    (forall req', attempt_made (events x) (S k) req' ->
       (contains (py "402") msg = true /\ k < 2) \/
       ((contains (py "429") msg = true \/ contains (py "50") msg = true) /\
        model_differs (model req) gemini_free = true)).
Proof.
  intros w ss um dp df k req msg x A.
  destruct (failing_attempt _ _ _ _ _ _ _ _ _ _ _ (run_split x) A)
    as (ssk & p & t & _ & -> & M).
  cbn [model chat_request].
  destruct (contains (py "402") msg && (k <? 2)) eqn:B1.
  { apply andb_true_iff in B1 as [B1 B2]. apply Nat.ltb_lt in B2.
    split; [congruence|]. intros _ _. now left. }
  destruct ((contains (py "429") msg || contains (py "50") msg)
            && model_differs (model_name ssk) gemini_free) eqn:B2.
  { apply andb_true_iff in B2 as [B2 B3]. apply orb_true_iff in B2.
    split; [|intros _ _; now right].
    intros _ H1 H2. destruct B2; congruence. }
  rewrite (on_error_reraise _ _ _ _ B1 B2) in M.
  destruct M as (L & _ & R & I).
  split; [now intros _ _ _|].
  intros req' N. now destruct (no_next_attempt _ _ _ L N).
Qed.

(** C3: after an attempt that failed with an error text holding "402", the
    next attempt is made with the next, lower token limit of the ladder
    when the attempt was the first or the second; the third attempt is
    followed by none and [chat_with_llm] returns [None] with a text. *)
Theorem C3_quota_error_moves_down_the_ladder :
  forall w ss user_message dataset_path df k req msg,
    let x : run := chat_with_llm w ss user_message dataset_path df in
    attempt_fails w (events x) k req msg ->
    contains (py "402") msg = true ->
    (k < 2 ->
     exists req',
       attempt_made (events x) (S k) req' /\
       nth_error token_attempts (S k) = Some (max_tokens req') /\
       (max_tokens req' < max_tokens req)%Z) /\
    (k = 2 ->
     last_attempt (events x) k /\
     exists error_text, returned x = Returned (None, error_text)).
Proof.
  intros w ss um dp df k req msg x A H402.
  destruct (failing_attempt _ _ _ _ _ _ _ _ _ _ _ (run_split x) A)
    as (ssk & p & t & T & -> & M).
  split.
  - intros K. rewrite (on_error_quota _ _ _ _ H402 K) in M.
    destruct M as [M _]. destruct (M K) as (t' & T' & N & _).
    exists (chat_request ssk p um t'). cbn [max_tokens chat_request].
    repeat split; try assumption.
    destruct k as [|[|k]]; cbn in T, T'; try lia;
      injection T as <-; injection T' as <-; lia.
  - intros ->. destruct (on_error 2 t msg ssk) as [[ss1 wn]|].
    + destruct M as [_ M]. destruct (M eq_refl) as (L & _ & R & _).
      split; [exact L|]. eexists; exact R.
    + destruct M as (L & _ & R & _). split; [exact L|]. eexists; exact R.
Qed.

(** C4, as the code has it: the quota branch is tried first and the ladder
    is not extended. After an attempt that failed with an error text
    holding "429" or "50" which the quota branch does not take (no "402",
    or the third attempt): under a model other than the free Gemini one the
    session is switched to it and stays so, the second or third attempt is
    then made with it on the next tier, and after the third attempt nothing
    more is tried and the failure message is returned; under the free
    Gemini model the error is re-raised and the loop ends. *)
Theorem C4_rate_limit_switches_model :
  forall w ss user_message dataset_path df k req msg,
    let x : run := chat_with_llm w ss user_message dataset_path df in
    attempt_fails w (events x) k req msg ->
    contains (py "429") msg || contains (py "50") msg = true ->
    contains (py "402") msg && (k <? 2) = false ->
    (model_differs (model req) gemini_free = true ->
     model_name (final_session x) = Some gemini_free /\
     (k < 2 ->
      exists req',
        attempt_made (events x) (S k) req' /\
        model req' = Some gemini_free /\
        nth_error token_attempts (S k) = Some (max_tokens req')) /\
     (k = 2 ->
      last_attempt (events x) k /\
      returned x
      = Returned (None, py "Failed to generate LLM response."))) /\
    (model_differs (model req) gemini_free = false ->
     last_attempt (events x) k /\ returned x = Returned (None, msg)).
Proof.
  intros w ss um dp df k req msg x A H429 H402.
  destruct (failing_attempt _ _ _ _ _ _ _ _ _ _ _ (run_split x) A)
    as (ssk & p & t & T & -> & M).
  cbn [model chat_request]. split; intros D.
  - rewrite (on_error_switch _ _ _ _ H402 H429 D) in M.
    destruct M as [M1 M2].
    assert (K : k < length token_attempts)
      by (apply nth_error_Some; congruence).
    cbn in K.
    split; [|split].
    + destruct (Nat.lt_ge_cases k 2) as [K2|K2].
      * destruct (M1 K2) as (_ & _ & _ & G). now apply G.
      * assert (k = 2) as -> by lia.
        now destruct (M2 eq_refl) as (_ & -> & _).
    + intros K2. destruct (M1 K2) as (t' & T' & N & _).
      exists (chat_request (mkSession (openrouter_api_key ssk) (Some gemini_free))
                p um t').
      now repeat split.
    + intros K2. destruct (M2 K2) as (L & _ & R & _). now split.
  - rewrite (on_error_reraise _ _ _ _ H402) in M.
    + destruct M as (L & _ & R & _). now split.
    + rewrite D. apply andb_false_r.
Qed.

Lemma C2_unclassified_error_is_reraised_witness :
  last_attempt (events (run_always_fails error_401 session_gpt4o)) 0 /\
  returned (run_always_fails error_401 session_gpt4o)
  = Returned (None, error_401) /\
  In (Error_communicating error_401)
     (events (run_always_fails error_401 session_gpt4o)).
Proof.
  refine (proj1 (C2_unclassified_error_is_reraised
                   (world_always_fails error_401) session_gpt4o
                   question sales_path df_sales 0
                   (chat_request session_gpt4o prompt_sales question 2000)
                   error_401 _) _ _ _).
  - split; [vm_compute; reflexivity|reflexivity].
  - vm_compute; reflexivity.
  - vm_compute; reflexivity.
  - vm_compute; reflexivity.
Defined.

(** C2 as stated fails on "503 Service Unavailable": the text holds neither
    "402" nor "429", yet under a model other than the free Gemini one a
    second attempt follows. *)
Lemma C2_counterexample_service_unavailable : ~ C2_as_stated.
Proof.
  intros H.
  destruct (H (world_first_fails error_503) session_gpt4o
              question sales_path df_sales 0
              (chat_request session_gpt4o prompt_sales question 2000)
              error_503) as [L _].
  - split; [vm_compute; reflexivity|reflexivity].
  - vm_compute; reflexivity.
  - vm_compute; reflexivity.
  - vm_compute in L. discriminate L.
Qed.

Lemma C3_quota_error_moves_down_the_ladder_witness :
  exists req',
    attempt_made (events (run_first_fails error_402 session_gpt4o)) 1 req' /\
    nth_error token_attempts 1 = Some (max_tokens req') /\
    (max_tokens req' < 2000)%Z.
Proof.
  refine (proj1 (C3_quota_error_moves_down_the_ladder
                   (world_first_fails error_402) session_gpt4o
                   question sales_path df_sales 0
                   (chat_request session_gpt4o prompt_sales question 2000)
                   error_402 _ _) _).
  - split; [vm_compute; reflexivity|reflexivity].
  - vm_compute; reflexivity.
  - lia.
Defined.

Lemma C4_rate_limit_switches_model_witness :
  model_name (final_session (run_first_fails error_429 session_gpt4o))
  = Some gemini_free /\
  (0 < 2 ->
   exists req',
     attempt_made (events (run_first_fails error_429 session_gpt4o)) 1 req' /\
     model req' = Some gemini_free /\
     nth_error token_attempts 1 = Some (max_tokens req')) /\
  (0 = 2 ->
   last_attempt (events (run_first_fails error_429 session_gpt4o)) 0 /\
   returned (run_first_fails error_429 session_gpt4o)
   = Returned (None, py "Failed to generate LLM response.")).
Proof.
  refine (proj1 (C4_rate_limit_switches_model
                   (world_first_fails error_429) session_gpt4o
                   question sales_path df_sales 0
                   (chat_request session_gpt4o prompt_sales question 2000)
                   error_429 _ _ _) _).
  - split; [vm_compute; reflexivity|reflexivity].
  - vm_compute; reflexivity.
  - vm_compute; reflexivity.
  - vm_compute; reflexivity.
Defined.

(** C4 as stated fails on a quota error whose text also holds "50" (it
    quotes the 500 tokens the account can afford): the quota branch takes
    it first, and the second attempt is made with the model unchanged. *)
Lemma C4_counterexample_quota_branch_first : ~ C4_as_stated.
Proof.
  intros H.
  destruct (H (world_first_fails error_402_afford) session_gpt4o
              question sales_path df_sales 0
              (chat_request session_gpt4o prompt_sales question 2000)
              error_402_afford) as [H1 _].
  - split; [vm_compute; reflexivity|reflexivity].
  - vm_compute; reflexivity.
  - destruct H1 as (req' & N & M); [vm_compute; reflexivity|].
    unfold attempt_made in N. vm_compute in N. injection N as <-.
    vm_compute in M. discriminate M.
Qed.

(** On the third attempt the switch is not followed by a retry. *)
Example rate_limit_on_third_attempt :
  let x := run_always_fails (py "402 and 429") session_gpt4o in
  length (llm_calls (events x)) = 3 /\
  model_name (final_session x) = Some gemini_free /\
  returned x = Returned (None, py "Failed to generate LLM response.").
Proof. vm_compute. repeat split. Qed.

(** ** [chat_with_llm] at its interface *)

(** A loop that leaves a response got it from one of its attempts. *)
Lemma retry_loop_success w p um :
  forall todo ss resp ss' evs,
    retry_loop w p um todo ss = (Ok (Some resp), ss', evs) ->
    exists k i req,
      nth_error (llm_calls evs) k = Some (i, req) /\
      chat_create w i req = Ok (Some resp).
Proof.
  induction todo as [|[i t] todo IH]; intros ss resp ss' evs.
  - discriminate.
  - cbn [retry_loop].
    destruct (chat_create w i _) as [resp0|msg] eqn:F.
    + intros [= -> _ <-]. now exists 0, i, (chat_request ss p um t).
    + destruct (on_error i t msg ss) as [[ss1 wn]|] eqn:E; [|discriminate].
      destruct (retry_loop w p um todo ss1) as [[r1 s1] evs1] eqn:L.
      intros [= -> _ <-].
      destruct (IH _ _ _ _ L) as (k & j & req & N & C).
      exists (S k), j, req. split; [|exact C].
      now rewrite (on_error_warning _ _ _ _ _ _ E).
Qed.

(** C10, as the code has it: the column lines of the prompt are built
    before the [try], so an exception raised there reaches the caller.
    When they are built, whatever the client and the sandbox do,
    [chat_with_llm] returns a pair with a text as second component; when no
    attempt of the run obtained a response, the first component is [None]
    and the text is an error message that is also displayed: the failure
    notice, or the text of the exception. They are built for every frame
    with distinct labels whose samples print. When building them raises,
    the run is that exception alone: no request, nothing displayed, the
    session as it was. *)
Theorem C10_chat_with_llm_always_returns :
  forall w ss user_message dataset_path df,
    let x : run := chat_with_llm w ss user_message dataset_path df in
    (forall lines, columns_list df = Ok lines ->
     exists (code_results : option (list Result)) (reply : str),
       returned x = Returned (code_results, reply) /\
       ((forall k req llm_response,
            attempt_made (events x) k req ->
            chat_create w k req <> Ok (Some llm_response)) ->
        code_results = None /\
        ((reply = py "Failed to generate LLM response." /\
          In Error_failed_response (events x)) \/
         In (Error_communicating reply) (events x)))) /\
    (NoDup (df_columns df) ->
     (forall c, In c (df_cols df) -> renders c) ->
     exists (code_results : option (list Result)) (reply : str),
       returned x = Returned (code_results, reply)) /\
    (forall e, columns_list df = Raise e -> x = (Propagated e, ss, [])).
Proof.
  intros w ss um dp df x.
  assert (Built : forall lines, columns_list df = Ok lines ->
     exists (code_results : option (list Result)) (reply : str),
       returned x = Returned (code_results, reply) /\
       ((forall k req llm_response,
            attempt_made (events x) k req ->
            chat_create w k req <> Ok (Some llm_response)) ->
        code_results = None /\
        ((reply = py "Failed to generate LLM response." /\
          In Error_failed_response (events x)) \/
         In (Error_communicating reply) (events x)))).
  { intros lines0 CL0.
    destruct (chat_with_llm_loop _ _ _ _ _ _ _ _ (run_split x))
      as [[_ (e & R & I)]|[(lines & r & evsl & _ & L & E & R)
                          |(e & CL & _)]].
    - exists None, e. split; [exact R|].
      intros _. split; [reflexivity|now right].
    - destruct r as [[resp|]|e]; cbn [loop_reply] in R.
      + destruct R as [cr R]. exists cr, resp. split; [exact R|].
        intros Hno. exfalso.
        destruct (retry_loop_success _ _ _ _ _ _ _ _ L) as (k & i & req & N & C).
        destruct (retry_loop_attempt _ _ _ _ _ _ _ _ _ _ _ L N)
          as (_ & t & rest & _ & S1 & _).
        destruct (ladder_suffix _ _ _ _ S1) as [-> _].
        apply (Hno k req resp); [|exact C].
        unfold attempt_made. now rewrite E.
      + destruct R as [R I]. eexists None, _. split; [exact R|].
        intros _. split; [reflexivity|left; now split].
      + destruct R as [R I]. exists None, e. split; [exact R|].
        intros _. split; [reflexivity|now right].
    - congruence. }
  split; [exact Built|]. split.
  - intros N R.
    destruct (Built _ (columns_list_entries df N R)) as (cr & reply & E & _).
    now exists cr, reply.
  - intros e CL. subst x. unfold chat_with_llm. now rewrite CL.
Qed.

Lemma C10_chat_with_llm_always_returns_witness :
  exists (code_results : option (list Result)) (reply : str),
    returned (run_always_fails error_401 session_gpt4o)
    = Returned (code_results, reply) /\
    code_results = None /\
    ((reply = py "Failed to generate LLM response." /\
      In Error_failed_response
         (events (run_always_fails error_401 session_gpt4o))) \/
     In (Error_communicating reply)
        (events (run_always_fails error_401 session_gpt4o))).
Proof.
  destruct (proj1 (C10_chat_with_llm_always_returns
                     (world_always_fails error_401) session_gpt4o
                     question sales_path df_sales) _ eq_refl)
    as (cr & reply & R & H).
  exists cr, reply. split; [exact R|].
  apply H. intros k req resp _. discriminate.
Defined.

(** A frame with a cell on which [str()] raises: the exception leaves
    [chat_with_llm], whatever the world. *)
Lemma C10_counterexample_unprintable_sample : ~ C10_as_stated.
Proof.
  intros H.
  destruct (H world_sandbox_down session_gpt4o question sales_path
              df_unprintable) as (cr & reply & R).
  discriminate R.
Qed.

(** ** [code_interpret] *)

(** C7: [code_interpret] hands the code to the sandbox unchanged; an
    execution without error gives back its result list as it is, and the
    answer is [None] exactly when the execution carries an error or the
    sandbox call raises. *)
Theorem C7_code_interpret_pass_through :
  forall (w : World) (code : str),
    In (RunCode code) (snd (code_interpret w code)) /\
    (forall exec_result,
        run_code w code = Ok exec_result -> error exec_result = None ->
        fst (code_interpret w code) = Some (results exec_result)) /\
    (fst (code_interpret w code) = None <->
     (exists exec_result e,
         run_code w code = Ok exec_result /\ error exec_result = Some e) \/
     (exists raised, run_code w code = Raise raised)).
Proof.
  intros w code. unfold code_interpret.
  destruct (run_code w code) as [x|raised] eqn:R.
  - destruct (error x) as [e|] eqn:E; cbn [fst snd].
    + split; [simpl; auto|]. split.
      * intros y [= <-]. congruence.
      * split; [|reflexivity]. intros _. left. now exists x, e.
    + split; [simpl; auto|]. split.
      * now intros y [= <-].
      * split; [discriminate|].
        intros [(y & e & [= <-] & E')|(m & [=])]. congruence.
  - cbn [fst snd]. split; [simpl; auto|]. split.
    + discriminate.
    + split; [|reflexivity]. intros _. right. now exists raised.
Qed.

Lemma C7_code_interpret_pass_through_witness :
  fst (code_interpret (world_first_fails error_402) (py "print(1)"))
  = Some (results empty_execution)
  /\ fst (code_interpret world_sandbox_down (py "print(1)")) = None.
Proof.
  split.
  - apply (proj1 (proj2 (C7_code_interpret_pass_through
                           (world_first_fails error_402) (py "print(1)"))));
      reflexivity.
  - apply (proj2 (proj2 (C7_code_interpret_pass_through
                           world_sandbox_down (py "print(1)")))).
    right. now exists (py "sandbox timeout").
Defined.

(** ** [display_visualization_results] *)

Lemma attr_if_truthy_None (a : option pyval) :
  has_truthy a = false -> attr_if_truthy a = None.
Proof. destruct a as [v|]; simpl; [now intros ->|reflexivity]. Qed.

(** C6, as the code has it: the image is shown when the [png] content can
    be decoded and opened; when that raises, an error message is shown in
    its place and no other representation is tried. Each result is shown
    under at most one representation, tried in the order [png], [data],
    [text] on the non-empty attributes; a result with none of them shows
    nothing; [None] and the empty list give the warning alone. *)
Theorem C6_display_results_in_fixed_order :
  forall (w : World),
    (forall result,
        length (display_result w result) <= 1 /\
        (forall v, png result = Some v -> truthy v = true ->
           (forall png_data img,
               b64decode w v = Ok png_data -> image_open w png_data = Ok img ->
               display_result w result = [Show_image img]) /\
           (forall e, b64decode w v = Raise e ->
               display_result w result = [Error_displaying_image e]) /\
           (forall png_data e,
               b64decode w v = Ok png_data -> image_open w png_data = Raise e ->
               display_result w result = [Error_displaying_image e])) /\
        (has_truthy (png result) = false ->
         forall d, data result = Some d -> truthy d = true ->
           display_result w result = [Show_dataframe d]) /\
        (has_truthy (png result) = false ->
         has_truthy (data result) = false ->
         forall t, text result = Some t -> truthy t = true ->
           display_result w result = [Show_text t]) /\
        (has_truthy (png result) = false ->
         has_truthy (data result) = false ->
         has_truthy (text result) = false ->
         display_result w result = [])) /\
    display_visualization_results w None = [Warning_no_results] /\
    display_visualization_results w (Some []) = [Warning_no_results] /\
    (forall r rs,
        display_visualization_results w (Some (r :: rs))
        = Subheader_results :: flat_map (display_result w) (r :: rs)).
Proof.
  intros w. split; [|now repeat split].
  intros result. unfold display_result.
  split; [|split; [intros v P T; repeat split|repeat split]].
  - destruct (attr_if_truthy (png result)) as [v|];
      [destruct (b64decode w v) as [b|]; [destruct (image_open w b)|]|
       destruct (attr_if_truthy (data result));
         [|destruct (attr_if_truthy (text result))]];
      simpl; lia.
  - intros png_data img B O. unfold attr_if_truthy.
    rewrite P, T, B, O. reflexivity.
  - intros e B. unfold attr_if_truthy. rewrite P, T, B. reflexivity.
  - intros png_data e B O. unfold attr_if_truthy.
    rewrite P, T, B, O. reflexivity.
  - intros P d D T. rewrite (attr_if_truthy_None _ P).
    unfold attr_if_truthy. now rewrite D, T.
  - intros P D t X T.
    rewrite (attr_if_truthy_None _ P), (attr_if_truthy_None _ D).
    unfold attr_if_truthy. now rewrite X, T.
  - intros P D X.
    now rewrite (attr_if_truthy_None _ P), (attr_if_truthy_None _ D),
      (attr_if_truthy_None _ X).
Qed.

Lemma C6_display_results_in_fixed_order_witness :
  display_result (world_first_fails error_402)
    (mkResult None (Some (PyDict [(py "a", py "1")])) (Some (PyStr (py "a 1"))))
  = [Show_dataframe (PyDict [(py "a", py "1")])]
  /\ display_result (world_first_fails error_402)
       (mkResult (Some PyNone) (Some (PyDict [])) (Some (PyStr (py "42"))))
     = [Show_text (PyStr (py "42"))]
  /\ display_result (world_first_fails error_402) (result_png (py "iVBO"))
     = [Error_displaying_image (py "Incorrect padding")].
Proof.
  pose proof (proj1 (C6_display_results_in_fixed_order
                       (world_first_fails error_402))) as H.
  split; [|split].
  - apply (proj1 (proj2 (proj2 (H _)))); reflexivity.
  - apply (proj1 (proj2 (proj2 (proj2 (H _))))); reflexivity.
  - apply (proj1 (proj2 (proj1 (proj2 (H (result_png (py "iVBO"))))
                                  (PyStr (py "iVBO")) eq_refl eq_refl))).
    reflexivity.
Defined.

(** C6 as stated fails on a [png] that does not decode: the attribute is
    non-empty, yet an error message is shown and no image. *)
Lemma C6_counterexample_undecodable_png : ~ C6_as_stated.
Proof.
  intros H.
  destruct (H (world_first_fails error_402) (result_png (py "iVBO")))
    as [H1 _].
  destruct (H1 eq_refl) as [img E].
  vm_compute in E. discriminate E.
Qed.

(** ** The column lines of the prompt *)

Lemma split_lines_line (s : str) :
  ~ In (ascii_of_nat 10) s -> split_lines s = [s].
Proof.
  induction s as [|c s IH]; [reflexivity|].
  intros H. cbn [split_lines].
  destruct (Ascii.eqb c (ascii_of_nat 10)) eqn:E.
  - apply Ascii.eqb_eq in E. exfalso. apply H. now left.
  - rewrite IH; [reflexivity|]. intros I. apply H. now right.
Qed.

Lemma split_lines_break (line rest : str) :
  ~ In (ascii_of_nat 10) line ->
  split_lines (line ++ nl ++ rest) = line :: split_lines rest.
Proof.
  induction line as [|c line IH]; intros H.
  - reflexivity.
  - cbn [app split_lines].
    destruct (Ascii.eqb c (ascii_of_nat 10)) eqn:E.
    + apply Ascii.eqb_eq in E. exfalso. apply H. now left.
    + change (line ++ ascii_of_nat 10 :: rest) with (line ++ nl ++ rest).
      rewrite IH; [reflexivity|]. intros I. apply H. now right.
Qed.

(** Joining lines by line breaks and splitting at line breaks gives the
    lines back, when there is one at least and none holds a line break. *)
Lemma split_lines_join (lines : list str) :
  lines <> [] ->
  (forall line, In line lines -> ~ In (ascii_of_nat 10) line) ->
  split_lines (join nl lines) = lines.
Proof.
  induction lines as [|line lines IH]; [easy|].
  intros _ H. destruct lines as [|line' lines].
  - cbn [join]. apply split_lines_line, H. now left.
  - change (join nl (line :: line' :: lines))
      with (line ++ nl ++ join nl (line' :: lines)).
    rewrite split_lines_break by (apply H; now left).
    rewrite IH; [reflexivity|discriminate|].
    intros l I. apply H. now right.
Qed.

Lemma column_entry_line (c : Column) :
  ~ In (ascii_of_nat 10) (col_name c) ->
  ~ In (ascii_of_nat 10) (col_dtype c) ->
  ~ In (ascii_of_nat 10) (shown_sample c) ->
  ~ In (ascii_of_nat 10) (column_entry c).
Proof.
  intros H1 H2 H3 I. unfold column_entry in I.
  repeat (apply in_app_or in I; destruct I as [I|I]); try tauto;
    cbn in I; intuition discriminate.
Qed.

(** C8, as the code has it, for a dataframe with distinct column labels
    whose samples print: the column lines are built, and the system prompt
    sent with every attempt holds, between its fixed head and its fixed
    task text, the entries of the columns in column order, joined by line
    breaks: the label, the dtype and the sample, which is the first
    non-null cell cut to at most 50 characters, or "N/A" for a column
    without one. When the frame has a column and no label, dtype or sample
    holds a line break, the lines of that block are these entries, one per
    column. *)
Theorem C8_prompt_has_one_line_per_column :
  forall (df : DataFrame),
    NoDup (df_columns df) ->
    (forall c, In c (df_cols df) -> renders c) ->
    columns_list df = Ok (map column_entry (df_cols df)) /\
    (forall c, In c (df_cols df) -> length (shown_sample c) <= 50) /\
    (df_cols df <> [] ->
     (forall c, In c (df_cols df) ->
                ~ In (ascii_of_nat 10) (col_name c) /\
                ~ In (ascii_of_nat 10) (col_dtype c) /\
                ~ In (ascii_of_nat 10) (shown_sample c)) ->
     split_lines (join nl (map column_entry (df_cols df)))
     = map column_entry (df_cols df) /\
     length (split_lines (join nl (map column_entry (df_cols df))))
     = length (df_cols df)) /\
    forall w ss user_message dataset_path k req,
      attempt_made
        (events (chat_with_llm w ss user_message dataset_path df)) k req ->
      messages req
      = [mkMessage (py "system")
           (prompt_head dataset_path
            ++ join nl (map column_entry (df_cols df))
            ++ prompt_task dataset_path);
         mkMessage (py "user") user_message].
Proof.
  intros df N R.
  pose proof (columns_list_entries df N R) as CL.
  split; [exact CL|].
  split; [intros c _; apply shown_sample_length|].
  split.
  - intros NE LF.
    assert (S : split_lines (join nl (map column_entry (df_cols df)))
                = map column_entry (df_cols df)).
    { apply split_lines_join.
      - destruct (df_cols df); [easy|discriminate].
      - intros line I. apply in_map_iff in I as (c & <- & I).
        destruct (LF c I) as (L1 & L2 & L3).
        now apply column_entry_line. }
    split; [exact S|]. rewrite S. apply length_map.
  - intros w ss um dp k req A.
    destruct (chat_with_llm_attempt _ _ _ _ _ _ _ _ _ _ _
                (run_split (chat_with_llm w ss um dp df)) A)
      as (p & ssk & t & rest & r & evsk & _ & -> & _ & _ & _ & _
          & lines & CL' & ->).
    rewrite CL in CL'. injection CL' as <-. reflexivity.
Qed.

Lemma C8_prompt_has_one_line_per_column_witness :
  columns_list df_sales
  = Ok [py "- city (object) | Sample: 'Paris...'";
        py "- sales (float64) | Sample: '12.5...'";
        py "- notes (float64) | Sample: 'N/A...'"]
  /\ length (split_lines (join nl (map column_entry (df_cols df_sales)))) = 3.
Proof.
  assert (N : NoDup (df_columns df_sales)).
  { repeat constructor; simpl; intuition discriminate. }
  assert (R : forall c, In c (df_cols df_sales) -> renders c).
  { intros c [<-|[<-|[<-|[]]]] e; discriminate. }
  destruct (C8_prompt_has_one_line_per_column df_sales N R)
    as (CL & _ & S & _).
  split; [exact CL|].
  apply S; [discriminate|].
  intros c [<-|[<-|[<-|[]]]]; cbn; intuition discriminate.
Defined.

(** A text cell of two lines gives its column two lines of the prompt:
    three lines for two columns. *)
Lemma C8_counterexample_sample_with_line_break : ~ C8_as_stated.
Proof.
  intros H. destruct (H df_multiline) as (lines & CL & S).
  vm_compute in CL. injection CL as <-.
  vm_compute in S. discriminate S.
Qed.

(** Under a label that two columns carry, the sample of each is the print
    of a row of both, not a cell of the column. *)
Example columns_list_repeated_label :
  columns_list df_repeated
  = Ok [py "- a (int64) | Sample: 'a    1" ++ nl ++ py "a    x" ++ nl
        ++ py "Name: 0, dtype: object...'";
        py "- a (object) | Sample: 'a    1" ++ nl ++ py "a    x" ++ nl
        ++ py "Name: 0, dtype: object...'"].
Proof. vm_compute. reflexivity. Qed.

(** A sample on which [str()] raises stops the prompt builder. *)
Example columns_list_unprintable :
  columns_list df_unprintable = Raise (py "boom").
Proof. vm_compute. reflexivity. Qed.

(** ** Runs on concrete responses *)

Example extract_python_block :
  extract_python_code
    (py "Here:" ++ nl ++ py "```python" ++ nl ++ py "x = 1" ++ nl ++ py "``` done")
  = py "x = 1".
Proof. vm_compute. reflexivity. Qed.

Example extract_python_block_before_generic :
  extract_python_code (py "``` a ``` ```python b ```") = py "b".
Proof. vm_compute. reflexivity. Qed.

(** The fallback removes [```python] in lower case only. *)
Example extract_unclosed_capitalised :
  extract_python_code (py "```Python x = 1") = py "Python x = 1".
Proof. vm_compute. reflexivity. Qed.

Example extract_unclosed_fence :
  extract_python_code (py "````python  print(1) ") = py "`  print(1)".
Proof. vm_compute. reflexivity. Qed.

Example quota_run_calls :
  map (fun c => (fst c, model (snd c), max_tokens (snd c)))
      (llm_calls (events (run_always_fails error_402 session_gpt4o)))
  = [(0, Some (py "openai/gpt-4o"), 2000%Z);
     (1, Some (py "openai/gpt-4o"), 500%Z);
     (2, Some (py "openai/gpt-4o"), 200%Z)]
  /\ returned (run_always_fails error_402 session_gpt4o)
     = Returned (None, error_402).
Proof. vm_compute. split; reflexivity. Qed.

Example rate_limit_run_calls :
  map (fun c => (fst c, model (snd c), max_tokens (snd c)))
      (llm_calls (events (run_always_fails error_429 session_gpt4o)))
  = [(0, Some (py "openai/gpt-4o"), 2000%Z);
     (1, Some gemini_free, 500%Z)]
  /\ returned (run_always_fails error_429 session_gpt4o)
     = Returned (None, error_429).
Proof. vm_compute. split; reflexivity. Qed.

(** * Further properties *)

(** ** [extract_python_code] on the answers the prompt asks for *)

Lemma occurs_trans (a b c : str) : occurs a b -> occurs b c -> occurs a c.
Proof.
  intros (p1 & q1 & ->) (p2 & q2 & ->).
  exists (p2 ++ p1), (q1 ++ q2). now rewrite <- !app_assoc.
Qed.

Lemma before_first_here (pat s : str) :
  startswith pat s = true -> before_first pat s = Some [].
Proof. intros H. destruct s; simpl; now rewrite H. Qed.

Lemma startswith_fence_code_nl (code rest : str) :
  contains fence code = false ->
  startswith fence (code ++ nl ++ rest) = false.
Proof.
  destruct code as [|a [|b [|c code]]]; intros H; cbn [app nl].
  - now apply startswith_fence_head.
  - now apply startswith_fence_second.
  - rewrite startswith_fence3.
    replace (eq_cs "`" (ascii_of_nat 10)) with false by reflexivity.
    now rewrite !andb_false_r.
  - rewrite startswith_fence3.
    cbn [contains] in H. apply orb_false_iff in H as [H _].
    now rewrite startswith_fence3 in H.
Qed.

Lemma before_first_code_nl (code post : str) :
  contains fence code = false ->
  before_first fence (code ++ nl ++ fence ++ post) = Some (code ++ nl).
Proof.
  induction code as [|c code IH]; intros H.
  - cbn [app nl before_first].
    rewrite startswith_fence_head by reflexivity.
    now rewrite (before_first_here fence (fence ++ post) (startswith_app _ _)).
  - cbn [app before_first].
    change (c :: code ++ nl ++ fence ++ post)
      with ((c :: code) ++ nl ++ fence ++ post).
    rewrite (startswith_fence_code_nl _ _ H).
    cbn [contains] in H. apply orb_false_iff in H as [_ H].
    cbn [app]. now rewrite (IH H).
Qed.

Lemma startswith_ci_python4 (c1 c2 c3 c4 : ascii) (s : str) :
  startswith_by eq_ci fence_python (c1 :: c2 :: c3 :: c4 :: s) = true ->
  startswith fence [c1; c2; c3] = true /\ eq_ci "p" c4 = true.
Proof.
  rewrite startswith_fence3. unfold fence_python; simpl.
  rewrite !backtick_eq_ci. intros H.
  repeat (apply andb_true_iff in H as [? H]).
  repeat (apply andb_true_iff; split); auto.
  split; [|assumption]. now repeat (apply andb_true_iff; split).
Qed.

(** Inside a text without fence no [```python] opener starts, not even one
    that runs into an opener right after it. *)
Lemma no_opener_before (c : ascii) (pre rest : str) :
  contains fence (c :: pre) = false ->
  block_here eq_ci fence_python ((c :: pre) ++ fence_python ++ rest) = None.
Proof.
  intros H. unfold block_here.
  destruct (startswith_by eq_ci fence_python _) eqn:E; [exfalso|reflexivity].
  destruct pre as [|d [|e pre]]; cbn [app fence_python py list_ascii_of_string] in E.
  - now destruct (startswith_ci_python4 _ _ _ _ _ E) as [_ F].
  - now destruct (startswith_ci_python4 _ _ _ _ _ E) as [_ F].
  - destruct (pre ++ _) as [|f s] eqn:P.
    + destruct pre; discriminate P.
    + destruct (startswith_ci_python4 _ _ _ _ _ E) as [F _].
      cbn [contains] in H. apply orb_false_iff in H as [H _].
      rewrite startswith_fence3 in F, H. congruence.
Qed.

Lemma search_python_after_clean (pre rest : str) (b : str) :
  contains fence pre = false ->
  block_here eq_ci fence_python (fence_python ++ rest) = Some b ->
  Re.search (block_here eq_ci fence_python) (pre ++ fence_python ++ rest)
  = Some b.
Proof.
  intros H B. induction pre as [|c pre IH].
  - now apply search_hit.
  - change (Re.search (block_here eq_ci fence_python)
              ((c :: pre) ++ fence_python ++ rest))
      with (match block_here eq_ci fence_python
                    ((c :: pre) ++ fence_python ++ rest) with
            | Some r => Some r
            | None => Re.search (block_here eq_ci fence_python)
                        (pre ++ fence_python ++ rest)
            end).
    rewrite (no_opener_before _ _ _ H). apply IH.
    cbn [contains] in H. now apply orb_false_iff in H as [_ H].
Qed.

Lemma lstrip_snoc_space (s : str) (c : ascii) :
  is_space c = true ->
  lstrip (s ++ [c]) = match lstrip s with [] => [] | l => l ++ [c] end.
Proof.
  intros Hc. unfold lstrip. induction s as [|d s IH]; simpl.
  - now rewrite Hc.
  - destruct (is_space d); [exact IH|reflexivity].
Qed.

Lemma strip_snoc_space (s : str) (c : ascii) :
  is_space c = true -> strip (s ++ [c]) = strip s.
Proof.
  intros Hc. unfold strip. rewrite (lstrip_snoc_space s c Hc).
  destruct (lstrip s) as [|d l]; [reflexivity|].
  unfold rstrip. rewrite rev_app_distr. simpl. now rewrite Hc.
Qed.

Lemma strip_cons_space (s : str) (c : ascii) :
  is_space c = true -> strip (c :: s) = strip s.
Proof. intros Hc. unfold strip, lstrip. simpl. now rewrite Hc. Qed.

(** X1: a response that wraps the code in the markdown block the prompt
    asks for ([```python], line break, code, line break, fence), after any
    text without a fence and before any text at all, gives back the code,
    stripped, when the code holds no fence itself. *)
Theorem X1_extract_recovers_wrapped_code :
  forall pre code post : str,
    contains fence pre = false ->
    contains fence code = false ->
    extract_python_code
      (pre ++ fence_python ++ nl ++ code ++ nl ++ fence ++ post)
    = strip code.
Proof.
  intros pre code post Hpre Hcode. unfold extract_python_code.
  rewrite search_pattern_python.
  rewrite (search_python_after_clean pre (nl ++ code ++ nl ++ fence ++ post)
             (nl ++ code ++ nl) Hpre).
  - cbn [option_map]. rewrite strip_lstrip.
    cbn [nl app]. rewrite strip_cons_space by reflexivity.
    exact (strip_snoc_space code (ascii_of_nat 10) eq_refl).
  - unfold block_here.
    replace (startswith_by eq_ci fence_python
               (fence_python ++ nl ++ code ++ nl ++ fence ++ post))
      with true by reflexivity.
    rewrite skipn_app, Nat.sub_diag, skipn_all. cbn [skipn app nl before_first].
    rewrite startswith_fence_head by reflexivity.
    change (code ++ ascii_of_nat 10 :: fence ++ post)
      with (code ++ nl ++ fence ++ post).
    now rewrite (before_first_code_nl code post Hcode).
Qed.

Lemma X1_extract_recovers_wrapped_code_witness :
  extract_python_code
    (py "Here is the code:" ++ nl ++ fence_python ++ nl
     ++ py "  print(df.head())  " ++ nl ++ fence ++ py " Done.")
  = strip (py "  print(df.head())  ").
Proof.
  apply (X1_extract_recovers_wrapped_code
           (py "Here is the code:" ++ nl) (py "  print(df.head())  ")
           (py " Done.")); vm_compute; reflexivity.
Defined.

Lemma search_block_inside eqc (opener text b : str) :
  Re.search (block_here eqc opener) text = Some b -> occurs b text.
Proof.
  intros S. destruct (search_Some_inv _ _ _ S) as (pre & s' & -> & H).
  unfold block_here in H.
  destruct (startswith_by eqc opener s'); [|discriminate].
  destruct (before_first_Some _ _ _ H) as [post E].
  exists (pre ++ firstn (length opener) s'), (fence ++ post).
  rewrite <- app_assoc. f_equal.
  rewrite <- (firstn_skipn (length opener) s') at 1. now rewrite E.
Qed.

(** X2: when the response holds a fenced block, the extracted code is a
    contiguous piece of the response: nothing is removed from inside it. *)
Theorem X2_extract_of_fenced_is_a_piece :
  forall text : str,
    has_block opens_generic text ->
    occurs (extract_python_code text) text.
Proof.
  intros text Hb. unfold extract_python_code.
  rewrite search_pattern_python, search_pattern_generic.
  destruct (Re.search (block_here eq_ci fence_python) text) as [b|] eqn:S1;
    cbn [option_map].
  - rewrite strip_lstrip. apply (occurs_trans _ b).
    + destruct (strip_inside b) as (x & y & E). now exists x, y.
    + exact (search_block_inside _ _ _ _ S1).
  - destruct (has_block_search eq_cs fence opens_generic opens_generic_length
                opens_generic_prefix text Hb) as [b S2].
    rewrite S2. cbn [option_map]. rewrite strip_lstrip.
    apply (occurs_trans _ b).
    + destruct (strip_inside b) as (x & y & E). now exists x, y.
    + exact (search_block_inside _ _ _ _ S2).
Qed.

Lemma X2_extract_of_fenced_is_a_piece_witness :
  occurs (extract_python_code (py "see ``` a = 2 ``` and ```b```"))
         (py "see ``` a = 2 ``` and ```b```").
Proof.
  apply X2_extract_of_fenced_is_a_piece.
  exists (py "see "), fence, (py " a = 2 "), (py " and ```b```").
  split; reflexivity.
Defined.

(** ** Runs of [chat_with_llm]: responses, the sandbox, the session *)

(** What a run is made of. *)
Lemma chat_with_llm_shape w ss um dp df :
  let x : run := chat_with_llm w ss um dp df in
  (exists e,
      openai_new w base_url (openrouter_api_key ss) = Raise e /\
      x = (Returned (None, e), ss, [Error_communicating e])) \/
  (exists lines r evsl,
      columns_list df = Ok lines /\
      retry_loop w (system_prompt dp (join nl lines)) um
        (enumerate token_attempts) ss = (r, final_session x, evsl) /\
      match r with
      | Ok (Some resp) =>
          returned x
          = Returned (fst (code_interpret w (extract_python_code resp)), resp) /\
          events x
          = evsl ++ Expander_generated_code resp
                 :: snd (code_interpret w (extract_python_code resp))
      | Ok None =>
          returned x = Returned (None, py "Failed to generate LLM response.") /\
          events x = evsl ++ [Error_failed_response]
      | Raise e =>
          returned x = Returned (None, e) /\
          events x = evsl ++ [Error_communicating e]
      end) \/
  (exists e, columns_list df = Raise e /\ x = (Propagated e, ss, [])).
Proof.
  unfold chat_with_llm.
  destruct (columns_list df) as [lines|e0].
  2:{ right. right. now exists e0. }
  unfold chat_try.
  destruct (openai_new w base_url (openrouter_api_key ss)) as [[]|e].
  2:{ left. now exists e. }
  right. left.
  destruct (retry_loop w (system_prompt dp (join nl lines)) um
              (enumerate token_attempts) ss) as [[r s1] evsl] eqn:L.
  exists lines, r, evsl. split; [reflexivity|].
  destruct r as [[resp|]|e].
  - destruct (code_interpret w (extract_python_code resp)) as [cr evs2].
    now repeat split.
  - now repeat split.
  - now repeat split.
Qed.

Lemma retry_loop_events w p um :
  forall todo ss r ss' evs,
    retry_loop w p um todo ss = (r, ss', evs) ->
    Forall (fun e => is_loop_event e = true) evs.
Proof.
  induction todo as [|[i t] todo IH]; intros ss r ss' evs.
  - intros [= _ _ <-]. constructor.
  - cbn [retry_loop]. destruct (chat_create w i _) as [resp|msg].
    + intros [= _ _ <-]. now repeat constructor.
    + destruct (on_error i t msg ss) as [[ss1 wn]|] eqn:E;
        [|intros [= _ _ <-]; now repeat constructor].
      destruct (retry_loop w p um todo ss1) as [[r1 s1] evs1] eqn:L.
      intros [= _ _ <-]. repeat constructor.
      * unfold on_error in E.
        destruct (_ && _) in E; [now injection E as _ <-|].
        destruct (_ && _) in E; [now injection E as _ <-|discriminate].
      * exact (IH _ _ _ _ L).
Qed.

Lemma filter_none {A : Type} (f g : A -> bool) (l : list A) :
  Forall (fun e => g e = true) l ->
  (forall e, g e = true -> f e = false) ->
  filter f l = [].
Proof.
  intros F H. induction F as [|e l He _ IH]; simpl; [reflexivity|].
  now rewrite (H e He).
Qed.

Lemma code_interpret_runs w code :
  filter is_run_code (snd (code_interpret w code)) = [RunCode code].
Proof.
  unfold code_interpret.
  destruct (run_code w code) as [e|]; [destruct (error e)|]; reflexivity.
Qed.

Lemma code_interpret_errors w code :
  fst (code_interpret w code) = None <->
  filter is_error_shown (snd (code_interpret w code)) <> [].
Proof.
  unfold code_interpret.
  destruct (run_code w code) as [e|]; [destruct (error e)|]; simpl;
    split; congruence.
Qed.

(** The loop up to an attempt, seen from the whole run. *)
Lemma attempt_outcome w ss um dp df k req :
  let x : run := chat_with_llm w ss um dp df in
  attempt_made (events x) k req ->
  exists lines r evsl,
    columns_list df = Ok lines /\
    retry_loop w (system_prompt dp (join nl lines)) um
      (enumerate token_attempts) ss = (r, final_session x, evsl) /\
    llm_calls (events x) = llm_calls evsl /\
    (forall resp, chat_create w k req = Ok resp ->
                  r = Ok resp /\ last_attempt (events x) k).
Proof.
  intros x A.
  destruct (chat_with_llm_loop _ _ _ _ _ _ _ _ (run_split x))
    as [[E _]|[(lines & r & evsl & CL & L & E & _)|(e & _ & _ & _ & E)]].
  { unfold attempt_made in A. rewrite E in A. now destruct k. }
  2:{ unfold attempt_made in A. rewrite E in A. now destruct k. }
  exists lines, r, evsl.
  split; [exact CL|split; [exact L|split; [exact E|]]].
  intros resp H.
  unfold attempt_made in A. rewrite E in A.
  destruct (retry_loop_attempt _ _ _ _ _ _ _ _ _ _ _ L A)
    as (ssk & t & rest & evsk & _ & -> & S3 & S4).
  cbn [retry_loop] in S3. rewrite H in S3. injection S3 as <- _ <-.
  split; [reflexivity|].
  unfold last_attempt. rewrite E, S4, length_app.
  rewrite (nth_error_firstn_length _ _ _ A). simpl. lia.
Qed.

(** X3: the first attempt that obtains a response text ends the ladder;
    the code extracted from it is run in the sandbox, once, and
    [chat_with_llm] returns the sandbox results together with the response
    as the model wrote it, not the extracted code. *)
Theorem X3_response_ends_ladder_and_runs_in_sandbox :
  forall w ss user_message dataset_path df k req resp,
    let x : run := chat_with_llm w ss user_message dataset_path df in
    attempt_made (events x) k req ->
    chat_create w k req = Ok (Some resp) ->
    last_attempt (events x) k /\
    filter is_run_code (events x) = [RunCode (extract_python_code resp)] /\
    returned x
    = Returned (fst (code_interpret w (extract_python_code resp)), resp).
Proof.
  intros w ss um dp df k req resp x A C.
  destruct (attempt_outcome w ss um dp df k req A)
    as (lines & r & evsl & CL & L & E & H).
  destruct (H _ C) as [-> La]. split; [exact La|].
  destruct (chat_with_llm_shape w ss um dp df)
    as [(e & _ & Hx)|[(lines' & r' & evsl' & CL' & L' & S)|(e & _ & Hx)]].
  { unfold attempt_made in A. fold x in Hx. rewrite Hx in A. now destruct k. }
  2:{ unfold attempt_made in A. fold x in Hx. rewrite Hx in A. now destruct k. }
  rewrite CL in CL'. injection CL' as <-. fold x in L'. rewrite L in L'.
  injection L' as <- <-. destruct S as [R Ev]. fold x in R, Ev.
  split; [|exact R].
  rewrite Ev, filter_app. cbn [filter is_run_code].
  rewrite code_interpret_runs.
  now rewrite (filter_none is_run_code is_loop_event evsl
                 (retry_loop_events _ _ _ _ _ _ _ _ L))
    by (intros []; simpl; congruence).
Qed.

Lemma X3_response_ends_ladder_and_runs_in_sandbox_witness :
  last_attempt (events (run_first_fails error_402 session_gpt4o)) 1 /\
  filter is_run_code (events (run_first_fails error_402 session_gpt4o))
  = [RunCode (extract_python_code fenced_reply)] /\
  returned (run_first_fails error_402 session_gpt4o)
  = Returned (fst (code_interpret (world_first_fails error_402)
                     (extract_python_code fenced_reply)), fenced_reply).
Proof.
  apply (X3_response_ends_ladder_and_runs_in_sandbox
           (world_first_fails error_402) session_gpt4o question sales_path
           df_sales 1 (chat_request session_gpt4o prompt_sales question 500)).
  - vm_compute. reflexivity.
  - reflexivity.
Defined.

(** X4: a response that carries no content ([None]) also ends the ladder,
    whichever attempt it answers: no further tier is tried, nothing is run
    in the sandbox, and the failure notice is returned and displayed. *)
Theorem X4_empty_content_ends_ladder_as_failure :
  forall w ss user_message dataset_path df k req,
    let x : run := chat_with_llm w ss user_message dataset_path df in
    attempt_made (events x) k req ->
    chat_create w k req = Ok None ->
    last_attempt (events x) k /\
    filter is_run_code (events x) = [] /\
    returned x = Returned (None, py "Failed to generate LLM response.") /\
    In Error_failed_response (events x).
Proof.
  intros w ss um dp df k req x A C.
  destruct (attempt_outcome w ss um dp df k req A)
    as (lines & r & evsl & CL & L & E & H).
  destruct (H _ C) as [-> La]. split; [exact La|].
  destruct (chat_with_llm_shape w ss um dp df)
    as [(e & _ & Hx)|[(lines' & r' & evsl' & CL' & L' & S)|(e & _ & Hx)]].
  { unfold attempt_made in A. fold x in Hx. rewrite Hx in A. now destruct k. }
  2:{ unfold attempt_made in A. fold x in Hx. rewrite Hx in A. now destruct k. }
  rewrite CL in CL'. injection CL' as <-. fold x in L'. rewrite L in L'.
  injection L' as <- <-. destruct S as [R Ev]. fold x in R, Ev.
  split; [|split; [exact R|]].
  - rewrite Ev, filter_app. cbn [filter is_run_code].
    now rewrite (filter_none is_run_code is_loop_event evsl
                   (retry_loop_events _ _ _ _ _ _ _ _ L))
      by (intros []; simpl; congruence).
  - rewrite Ev. apply in_or_app; right; now left.
Qed.

Lemma X4_empty_content_ends_ladder_as_failure_witness :
  last_attempt
    (events (chat_with_llm world_no_content session_gpt4o question
               sales_path df_sales)) 0 /\
  filter is_run_code
    (events (chat_with_llm world_no_content session_gpt4o question
               sales_path df_sales)) = [] /\
  returned (chat_with_llm world_no_content session_gpt4o question
              sales_path df_sales)
  = Returned (None, py "Failed to generate LLM response.") /\
  In Error_failed_response
     (events (chat_with_llm world_no_content session_gpt4o question
                sales_path df_sales)).
Proof.
  apply (X4_empty_content_ends_ladder_as_failure
           world_no_content session_gpt4o question sales_path df_sales 0
           (chat_request session_gpt4o prompt_sales question 2000)).
  - vm_compute. reflexivity.
  - reflexivity.
Defined.

Lemma In_llm_calls (evs : list event) (i : nat) (req : Request) :
  In (ChatCompletion i req) evs <-> In (i, req) (llm_calls evs).
Proof.
  induction evs as [|e evs IH]; [reflexivity|].
  destruct e; simpl; rewrite <- ?IH; try (split; [intros [[=]|]|]; tauto).
  split; intros [H|H]; auto; left; congruence.
Qed.

(** X5: the sandbox is asked to run code at most once in a run, and only
    code extracted from the response of an attempt of that run. *)
Theorem X5_sandbox_runs_only_extracted_code :
  forall w ss user_message dataset_path df,
    let x : run := chat_with_llm w ss user_message dataset_path df in
    length (filter is_run_code (events x)) <= 1 /\
    forall code,
      In (RunCode code) (events x) ->
      exists k req resp,
        attempt_made (events x) k req /\
        chat_create w k req = Ok (Some resp) /\
        code = extract_python_code resp.
Proof.
  intros w ss um dp df x.
  destruct (chat_with_llm_shape w ss um dp df)
    as [(e & _ & Hx)|[(lines & r & evsl & CL & L & S)|(e & _ & Hx)]];
    fold x in Hx || fold x in L, S.
  { rewrite Hx. unfold events; cbn [snd]. split; [simpl; lia|].
    intros code [[=]|[]]. }
  2:{ rewrite Hx. unfold events; cbn [snd]. split; [simpl; lia|].
      intros code []. }
  pose proof (retry_loop_events _ _ _ _ _ _ _ _ L) as F.
  assert (Fr : filter is_run_code evsl = [])
    by (apply (filter_none _ is_loop_event); [exact F|intros []; simpl; congruence]).
  assert (NoRun : forall code, ~ In (RunCode code) evsl).
  { intros code I.
    assert (I' : In (RunCode code) (filter is_run_code evsl))
      by (apply filter_In; now split).
    now rewrite Fr in I'. }
  destruct r as [[resp|]|e]; destruct S as [R Ev]; rewrite Ev.
  - split.
    + rewrite filter_app, Fr. cbn [app filter is_run_code].
      rewrite code_interpret_runs. simpl; lia.
    + intros code I. apply in_app_or in I as [I|[[=]|I]];
        [now destruct (NoRun code)|].
      assert (I' : In (RunCode code)
                     (filter is_run_code
                        (snd (code_interpret w (extract_python_code resp)))))
        by (apply filter_In; now split).
      rewrite code_interpret_runs in I'. destruct I' as [[= <-]|[]].
      destruct (retry_loop_success _ _ _ _ _ _ _ _ L) as (k & i & req & N & C).
      destruct (retry_loop_attempt _ _ _ _ _ _ _ _ _ _ _ L N)
        as (_ & t & rest & _ & S1 & _).
      destruct (ladder_suffix _ _ _ _ S1) as [-> _].
      exists k, req, resp. repeat split; [|exact C].
      unfold attempt_made. rewrite llm_calls_app. cbn [llm_calls].
      rewrite code_interpret_calls, app_nil_r. exact N.
  - split.
    + rewrite filter_app, Fr. simpl; lia.
    + intros code I. apply in_app_or in I as [I|[[=]|[]]].
      now destruct (NoRun code).
  - split.
    + rewrite filter_app, Fr. simpl; lia.
    + intros code I. apply in_app_or in I as [I|[[=]|[]]].
      now destruct (NoRun code).
Qed.

Lemma X5_sandbox_runs_only_extracted_code_witness :
  exists k req resp,
    attempt_made (events (run_first_fails error_402 session_gpt4o)) k req /\
    chat_create (world_first_fails error_402) k req = Ok (Some resp) /\
    py "print(1)" = extract_python_code resp.
Proof.
  apply (proj2 (X5_sandbox_runs_only_extracted_code
                  (world_first_fails error_402) session_gpt4o
                  question sales_path df_sales) (py "print(1)")).
  vm_compute. tauto.
Defined.

(** The loop leaves the API key alone and switches the model at most once,
    to the free Gemini model. *)
Lemma retry_loop_session w p um :
  forall todo ss r ss' evs,
    retry_loop w p um todo ss = (r, ss', evs) ->
    (filter is_model_switch evs = [] /\ ss' = ss) \/
    (length (filter is_model_switch evs) = 1 /\
     ss' = mkSession (openrouter_api_key ss) (Some gemini_free) /\
     model_differs (model_name ss) gemini_free = true).
Proof.
  induction todo as [|[i t] todo IH]; intros ss r ss' evs.
  - intros [= _ <- <-]. now left.
  - cbn [retry_loop]. destruct (chat_create w i _) as [resp|msg].
    + intros [= _ <- <-]. now left.
    + destruct (on_error i t msg ss) as [[ss1 wn]|] eqn:E;
        [|intros [= _ <- <-]; now left].
      destruct (retry_loop w p um todo ss1) as [[r1 s1] evs1] eqn:L.
      intros [= _ <- <-]. cbn [app filter is_model_switch].
      specialize (IH _ _ _ _ L). unfold on_error in E.
      destruct (_ && _) in E.
      * injection E as <- <-. exact IH.
      * destruct (_ && _) eqn:B in E; [|discriminate].
        injection E as <- <-. cbn [is_model_switch].
        apply andb_true_iff in B as [_ D].
        destruct IH as [[F ->]|(_ & _ & D')].
        -- right. rewrite F. now repeat split.
        -- cbn [model_name model_differs] in D'.
           now rewrite str_eqb_refl in D'.
Qed.

(** X6: a run never touches the API key of the session, and changes the
    model at most once: either no switch is announced and the session is
    left as it was, or exactly one switch is announced, the session ends on
    the free Gemini model and had started on another one. *)
Theorem X6_session_changes_at_most_once_to_gemini :
  forall w ss user_message dataset_path df,
    let x : run := chat_with_llm w ss user_message dataset_path df in
    (filter is_model_switch (events x) = [] /\ final_session x = ss) \/
    (length (filter is_model_switch (events x)) = 1 /\
     final_session x = mkSession (openrouter_api_key ss) (Some gemini_free) /\
     model_differs (model_name ss) gemini_free = true).
Proof.
  intros w ss um dp df x.
  destruct (chat_with_llm_shape w ss um dp df)
    as [(e & _ & Hx)|[(lines & r & evsl & CL & L & S)|(e & _ & Hx)]];
    fold x in Hx || fold x in L, S.
  { rewrite Hx. now left. }
  2:{ rewrite Hx. now left. }
  assert (T : filter is_model_switch (events x) = filter is_model_switch evsl).
  { destruct r as [[resp|]|e]; destruct S as [_ ->]; rewrite filter_app;
      cbn [filter is_model_switch]; rewrite ?app_nil_r; try reflexivity.
    unfold code_interpret.
    destruct (run_code w _) as [ex|]; [destruct (error ex)|];
      cbn [snd filter is_model_switch]; now rewrite app_nil_r. }
  rewrite T. exact (retry_loop_session _ _ _ _ _ _ _ _ L).
Qed.

(** X7: [chat_with_llm] shows an error message ([st.error]) exactly when
    the first component it returns is [None]: no failure is silent, and no
    error is shown beside results. *)
Theorem X7_error_shown_iff_no_results :
  forall w ss user_message dataset_path df code_results reply,
    let x : run := chat_with_llm w ss user_message dataset_path df in
    returned x = Returned (code_results, reply) ->
    (code_results = None <-> filter is_error_shown (events x) <> []).
Proof.
  intros w ss um dp df cr reply x R.
  destruct (chat_with_llm_shape w ss um dp df)
    as [(e & _ & Hx)|[(lines & r & evsl & CL & L & S)|(e & _ & Hx)]];
    fold x in Hx || fold x in L, S.
  { rewrite Hx in R |- *. injection R as <- _. simpl. split; congruence. }
  2:{ rewrite Hx in R. discriminate R. }
  assert (Fe : filter is_error_shown evsl = [])
    by (apply (filter_none _ is_loop_event);
        [exact (retry_loop_events _ _ _ _ _ _ _ _ L)
        |intros []; simpl; congruence]).
  destruct r as [[resp|]|e]; destruct S as [R' Ev]; rewrite R' in R;
    injection R as <- _; rewrite Ev, filter_app, Fe;
    cbn [app filter is_error_shown].
  - apply code_interpret_errors.
  - split; congruence.
  - split; congruence.
Qed.

Lemma X7_error_shown_iff_no_results_witness :
  filter is_error_shown
    (events (chat_with_llm world_code_fails session_gpt4o question
               sales_path df_sales)) <> [].
Proof.
  apply (proj1 (X7_error_shown_iff_no_results
                  world_code_fails session_gpt4o question sales_path df_sales
                  None fenced_reply eq_refl)).
  reflexivity.
Defined.

(** X8: once the column lines of the prompt are built, when every attempt
    fails for lack of credits (an error text with "402" and without "429"
    or "50"), all three tiers are tried with the session unchanged, and the
    text returned is the one of the third failure. *)
Theorem X8_persistent_quota_error_reports_last_failure :
  forall w ss user_message dataset_path df lines,
    columns_list df = Ok lines ->
    openai_new w base_url (openrouter_api_key ss) = Ok tt ->
    (forall i req, exists msg,
        chat_create w i req = Raise msg /\
        contains (py "402") msg = true /\
        contains (py "429") msg = false /\
        contains (py "50") msg = false) ->
    let x : run := chat_with_llm w ss user_message dataset_path df in
    length (llm_calls (events x)) = 3 /\
    final_session x = ss /\
    exists req msg,
      attempt_fails w (events x) 2 req msg /\
      returned x = Returned (None, msg).
Proof.
  intros w ss um dp df lines0 CL0 Hnew Hall x.
  destruct (chat_with_llm_shape w ss um dp df)
    as [(e & He & _)|[(lines & r & evsl & CL & L & S)|(e & He & _)]];
    [congruence| |congruence].
  fold x in L, S. set (p := system_prompt dp (join nl lines)) in *.
  destruct (Hall 0 (chat_request ss p um 2000)) as (m0 & C0 & Q0 & _).
  destruct (Hall 1 (chat_request ss p um 500)) as (m1 & C1 & Q1 & _).
  destruct (Hall 2 (chat_request ss p um 200)) as (m2 & C2 & Q2 & R2 & S2).
  cbn [enumerate token_attempts length seq combine retry_loop] in L.
  rewrite C0, (on_error_quota 0 _ _ _ Q0) in L by lia.
  rewrite C1, (on_error_quota 1 _ _ _ Q1) in L by lia.
  rewrite C2, on_error_reraise in L
    by (rewrite ?R2, ?S2, ?andb_false_r; reflexivity).
  injection L as <- Hs <-. destruct S as [R Ev].
  split; [|split; [now symmetry|]].
  - rewrite Ev, llm_calls_app. reflexivity.
  - exists (chat_request ss p um 200), m2. split; [|exact R].
    split; [|exact C2]. unfold attempt_made. rewrite Ev. reflexivity.
Qed.

Lemma X8_persistent_quota_error_reports_last_failure_witness :
  length (llm_calls (events (run_always_fails error_402 session_gpt4o))) = 3 /\
  final_session (run_always_fails error_402 session_gpt4o) = session_gpt4o /\
  exists req msg,
    attempt_fails (world_always_fails error_402)
      (events (run_always_fails error_402 session_gpt4o)) 2 req msg /\
    returned (run_always_fails error_402 session_gpt4o)
    = Returned (None, msg).
Proof.
  apply (X8_persistent_quota_error_reports_last_failure
           (world_always_fails error_402) session_gpt4o question sales_path
           df_sales _ eq_refl).
  - reflexivity.
  - intros i req. exists error_402. repeat split; vm_compute; reflexivity.
Defined.

(** ** What the renderer shows *)

Lemma attr_if_truthy_Some (a : option pyval) :
  has_truthy a = true -> exists v, attr_if_truthy a = Some v.
Proof. destruct a as [v|]; simpl; [intros ->; eauto|discriminate]. Qed.

Lemma display_result_length (w : World) (r : Result) :
  length (display_result w r) = if has_content r then 1 else 0.
Proof.
  unfold display_result, has_content.
  destruct (has_truthy (png r)) eqn:P.
  - destruct (attr_if_truthy_Some _ P) as [v ->]. simpl.
    destruct (b64decode w v) as [b|]; [destruct (image_open w b)|]; reflexivity.
  - rewrite (attr_if_truthy_None _ P).
    destruct (has_truthy (data r)) eqn:D.
    + now destruct (attr_if_truthy_Some _ D) as [v ->].
    + rewrite (attr_if_truthy_None _ D).
      destruct (has_truthy (text r)) eqn:T.
      * now destruct (attr_if_truthy_Some _ T) as [v ->].
      * now rewrite (attr_if_truthy_None _ T).
Qed.

(** X9: for any list of results the page shows one heading or warning,
    plus exactly one item (image, error, table or text) for each result
    that has a non-empty [png], [data] or [text]; results without any are
    passed over in silence. *)
Theorem X9_one_item_per_result_with_content :
  forall (w : World) (rs : list Result),
    length (display_visualization_results w (Some rs))
    = 1 + length (filter has_content rs).
Proof.
  intros w [|r rs]; [reflexivity|].
  cbn [display_visualization_results length Nat.add]. f_equal.
  induction (r :: rs) as [|r' l IH]; [reflexivity|].
  cbn [flat_map filter]. rewrite length_app, display_result_length, IH.
  now destruct (has_content r').
Qed.

(** ** The Analyze button *)

Lemma filter_map_Core (f : page_event -> bool) (l : list event) :
  (forall e, f (Core e) = false) -> filter f (map Core l) = [].
Proof.
  intros H. induction l as [|e l IH]; simpl; [reflexivity|].
  now rewrite H.
Qed.

Lemma finally_kill_is (a : App) : finally_kill a = [Sandbox_kill].
Proof. unfold finally_kill. now destruct (sandbox_kill a). Qed.

(** The handler, unfolded along the results of the calls it makes. *)
Ltac analyze_cases a ss e2b query f df :=
  unfold analyze, upload_dataset, show_failure;
  rewrite ?finally_kill_is;
  destruct (openrouter_api_key ss) as [|k1 key] eqn:K;
  [|destruct e2b as [|k2 e2b'];
    [|destruct query as [|q1 query'];
      [|destruct (environ_set (k2 :: e2b')) as [[]|ee] eqn:ES;
        [destruct (sandbox_create a) as [[]|ce] eqn:SC;
         [destruct (files_write a (py "./" ++ file_name f) (file_content f))
            as [[]|we] eqn:FW;
          [destruct (chat_with_llm (app_world a) ss (q1 :: query')
                       (py "./" ++ file_name f) df)
             as [[[[cr reply]|pe] ss'] evs] eqn:CH;
           [destruct (results_truthy cr) eqn:RT| ]
          | ]
         | ]
        | ]]]].

Lemma environ_set_ok (value : str) :
  environ_set value = Ok tt <-> has_nul value = false.
Proof. unfold environ_set. destruct (has_nul value); split; congruence. Qed.


(** X10: the handler contacts a service (sandbox creation, file write,
    chat completion, code execution) exactly when the OpenRouter key, the
    E2B key and the question are all non-empty and the E2B key holds no NUL
    character, which the environment refuses; with one of the three empty
    it shows a single message and leaves the session as it is, and with a
    NUL in the key it shows the failure and leaves the session as it is. *)
Theorem X10_services_contacted_iff_inputs_present :
  forall a ss e2b_api_key query uploaded_file df,
    let r := analyze a ss e2b_api_key query uploaded_file df in
    (filter is_service_call (snd r) = [] <->
     openrouter_api_key ss = [] \/ e2b_api_key = [] \/ query = [] \/
     has_nul e2b_api_key = true) /\
    (openrouter_api_key ss = [] \/ e2b_api_key = [] \/ query = [] ->
     fst r = ss /\ length (snd r) = 1) /\
    (openrouter_api_key ss <> [] -> query <> [] ->
     has_nul e2b_api_key = true ->
     fst r = ss /\
     snd r = [Spinner_initializing;
              Error_occurred (py "embedded null byte"); Info_check_keys]).
Proof.
  intros a ss e2b query f df r. subst r.
  assert (Nul : forall k2 e2b' ee,
             environ_set (k2 :: e2b') = Raise ee ->
             has_nul (k2 :: e2b') = true /\ ee = py "embedded null byte").
  { intros k2 e2b' ee. unfold environ_set.
    destruct (has_nul (k2 :: e2b')); [intros [= <-]; now split|discriminate]. }
  analyze_cases a ss e2b query f df;
    try (apply environ_set_ok in ES);
    cbn [fst snd app filter is_service_call].
  - split; [split; auto|]. split; [now split|]. now intros H.
  - split; [split; auto|]. split; [now split|]. intros _ _ [=].
  - split; [split; auto|]. split; [now split|]. now intros _ H.
  - split; [split; [discriminate|intros [H|[H|[H|H]]]; congruence]|].
    split; [intros [H|[H|H]]; discriminate H|congruence].
  - split; [split; [discriminate|intros [H|[H|[H|H]]]; congruence]|].
    split; [intros [H|[H|H]]; discriminate H|congruence].
  - split; [split; [discriminate|intros [H|[H|[H|H]]]; congruence]|].
    split; [intros [H|[H|H]]; discriminate H|congruence].
  - split; [split; [discriminate|intros [H|[H|[H|H]]]; congruence]|].
    split; [intros [H|[H|H]]; discriminate H|congruence].
  - split; [split; [discriminate|intros [H|[H|[H|H]]]; congruence]|].
    split; [intros [H|[H|H]]; discriminate H|congruence].
  - destruct (Nul _ _ _ ES) as [HN ->].
    split; [split; [auto|reflexivity]|].
    split; [intros [H|[H|H]]; discriminate H|]. intros _ _ _. now split.
Qed.

Lemma X10_services_contacted_iff_inputs_present_witness :
  (fst (analyze (app_of (world_first_fails error_402) (Ok tt) (Ok tt))
          session_gpt4o (py "e2b_key") [] sales_file df_sales)
   = session_gpt4o /\
   length (snd (analyze (app_of (world_first_fails error_402) (Ok tt) (Ok tt))
                  session_gpt4o (py "e2b_key") [] sales_file df_sales)) = 1) /\
  snd (analyze (app_of (world_first_fails error_402) (Ok tt) (Ok tt))
         session_gpt4o (py "e2b" ++ [ascii_of_nat 0]) question sales_file
         df_sales)
  = [Spinner_initializing;
     Error_occurred (py "embedded null byte"); Info_check_keys].
Proof.
  split.
  - apply (proj1 (proj2 (X10_services_contacted_iff_inputs_present
                    (app_of (world_first_fails error_402) (Ok tt) (Ok tt))
                    session_gpt4o (py "e2b_key") [] sales_file df_sales))).
    right; right; reflexivity.
  - apply (proj2 (proj2 (X10_services_contacted_iff_inputs_present
                    (app_of (world_first_fails error_402) (Ok tt) (Ok tt))
                    session_gpt4o (py "e2b" ++ [ascii_of_nat 0]) question
                    sales_file df_sales))).
    + discriminate.
    + discriminate.
    + reflexivity.
Defined.

(** X11: a sandbox that was created is killed exactly once, as the last
    thing the handler does, whatever failed in between (and whether the
    kill itself raises); when no sandbox was created, none is killed. *)
Theorem X11_created_sandbox_is_killed_last :
  forall a ss e2b_api_key query uploaded_file df,
    let evs := snd (analyze a ss e2b_api_key query uploaded_file df) in
    (In Sandbox_create evs -> sandbox_create a = Ok tt ->
     exists before, evs = before ++ [Sandbox_kill] /\
                    filter is_kill before = []) /\
    ((~ In Sandbox_create evs \/ exists e, sandbox_create a = Raise e) ->
     filter is_kill evs = []).
Proof.
  intros a ss e2b query f df evs. subst evs.
  analyze_cases a ss e2b query f df; cbn [snd]; split.
  - intros [[=]|[]].
  - reflexivity.
  - intros [[=]|[]].
  - reflexivity.
  - intros [[=]|[]].
  - reflexivity.
  - intros _ _. eexists. split.
    + rewrite !app_comm_cons, !app_assoc. reflexivity.
    + rewrite !filter_app. cbn [filter is_kill app].
      now rewrite !filter_map_Core.
  - intros [N|[e [=]]]. exfalso; apply N; simpl; tauto.
  - intros _ _. eexists. split.
    + rewrite !app_comm_cons, !app_assoc. reflexivity.
    + rewrite !filter_app. cbn [filter is_kill app].
      now rewrite !filter_map_Core.
  - intros [N|[e [=]]]. exfalso; apply N; simpl; tauto.
  - intros _ _. eexists. split.
    + rewrite !app_comm_cons, !app_assoc. reflexivity.
    + rewrite !filter_app. cbn [filter is_kill app].
      now rewrite !filter_map_Core.
  - intros [N|[e [=]]]. exfalso; apply N; simpl; tauto.
  - intros _ _. eexists. split.
    + rewrite !app_comm_cons, !app_assoc. reflexivity.
    + reflexivity.
  - intros [N|[e [=]]]. exfalso; apply N; simpl; tauto.
  - intros _ [=].
  - reflexivity.
  - intros [[=]|[[=]|[[=]|[]]]].
  - reflexivity.
Qed.

Lemma X11_created_sandbox_is_killed_last_witness :
  exists before,
    snd (analyze (app_of (world_first_fails error_402) (Ok tt)
                    (Raise (py "disk full")))
           session_gpt4o (py "e2b_key") question sales_file df_sales)
    = before ++ [Sandbox_kill] /\
    filter is_kill before = [].
Proof.
  apply (proj1 (X11_created_sandbox_is_killed_last
                  (app_of (world_first_fails error_402) (Ok tt)
                     (Raise (py "disk full")))
                  session_gpt4o (py "e2b_key") question sales_file df_sales)).
  - simpl. tauto.
  - reflexivity.
Defined.

(** X12: every click ends with exactly one message that tells how it went:
    a missing input, success, no visualization, or the error that
    occurred. *)
Theorem X12_one_verdict_per_click :
  forall a ss e2b_api_key query uploaded_file df,
    length (filter is_verdict
              (snd (analyze a ss e2b_api_key query uploaded_file df))) = 1.
Proof.
  intros a ss e2b query f df.
  analyze_cases a ss e2b query f df; cbn [snd];
    repeat first [ rewrite filter_app
                 | rewrite filter_map_Core by reflexivity
                 | progress cbn [filter is_verdict app length] ];
    reflexivity.
Qed.


Lemma In_map_Core (e : event) (l : list event) :
  In (Core e) (map Core l) -> In e l.
Proof. intros I. apply in_map_iff in I as (e' & [= ->] & I). exact I. Qed.





(** X14: the handler does not look at [model_name] before it asks the
    model. With the three inputs present and the E2B key accepted by the
    environment, the sandbox created, the file written, the column lines of
    the prompt built and the client built, the first request always goes
    out, on the 2000-token tier and with the session's model as it stands,
    also when the selector left it at [None] for a locked model. *)
Theorem X14_first_request_goes_out_whatever_the_model :
  forall a ss e2b_api_key query uploaded_file df lines,
    openrouter_api_key ss <> [] -> e2b_api_key <> [] -> query <> [] ->
    has_nul e2b_api_key = false ->
    sandbox_create a = Ok tt ->
    files_write a (py "./" ++ file_name uploaded_file)
      (file_content uploaded_file) = Ok tt ->
    columns_list df = Ok lines ->
    openai_new (app_world a) base_url (openrouter_api_key ss) = Ok tt ->
    exists req,
      In (Core (ChatCompletion 0 req))
         (snd (analyze a ss e2b_api_key query uploaded_file df)) /\
      model req = model_name ss /\ max_tokens req = 2000%Z.
Proof.
  intros a ss e2b query f df lines0 Hk He Hq Hz Hc Hw Hl Hn.
  assert (C : exists req,
             In (ChatCompletion 0 req)
                (events (chat_with_llm (app_world a) ss query
                           (py "./" ++ file_name f) df)) /\
             model req = model_name ss /\ max_tokens req = 2000%Z).
  { destruct (chat_with_llm_shape (app_world a) ss query
                (py "./" ++ file_name f) df)
      as [(e & E & _)|[(lines & r & evsl & _ & L & S)|(e & E & _)]];
      [congruence| |congruence].
    destruct (retry_loop_first_call _ _ _ _ _ _ _ _ _ _ L) as [tail T].
    exists (chat_request ss
              (system_prompt (py "./" ++ file_name f) (join nl lines))
              query 2000).
    split; [|split; reflexivity].
    assert (I : In (ChatCompletion 0
                      (chat_request ss
                         (system_prompt (py "./" ++ file_name f) (join nl lines))
                         query 2000)) evsl)
      by (apply In_llm_calls; rewrite T; now left).
    destruct r as [[resp|]|e]; destruct S as [_ ->];
      apply in_or_app; now left. }
  destruct C as (req & I & M & T). exists req. split; [|now split].
  apply environ_set_ok in Hz.
  revert I.
  analyze_cases a ss e2b query f df; try congruence; cbn [snd events];
    intros I; cbn [app]; do 7 right;
    apply in_or_app; left; now apply in_map.
Qed.

Lemma X14_first_request_goes_out_whatever_the_model_witness :
  exists req,
    In (Core (ChatCompletion 0 req))
       (snd (analyze (app_of (world_always_fails error_401) (Ok tt) (Ok tt))
               (mkSession (py "sk-or-v1") None) (py "e2b_key") question
               sales_file df_sales)) /\
    model req = None /\ max_tokens req = 2000%Z.
Proof.
  apply (X14_first_request_goes_out_whatever_the_model
           (app_of (world_always_fails error_401) (Ok tt) (Ok tt))
           (mkSession (py "sk-or-v1") None) (py "e2b_key") question
           sales_file df_sales
           [py "- city (object) | Sample: 'Paris...'";
            py "- sales (float64) | Sample: '12.5...'";
            py "- notes (float64) | Sample: 'N/A...'"]);
    try discriminate; reflexivity.
Defined.

(** ** The session dictionary *)

Lemma str_eqb_sym (a b : str) : str_eqb a b = str_eqb b a.
Proof.
  destruct (str_eqb a b) eqn:E.
  - apply str_eqb_eq in E. subst b. now rewrite str_eqb_refl.
  - destruct (str_eqb b a) eqn:E'; [|reflexivity].
    apply str_eqb_eq in E'. subst b. now rewrite str_eqb_refl in E.
Qed.

Lemma state_get_set (key k : str) (v : state_value) (st : session_state) :
  state_get key (state_set k v st)
  = if str_eqb k key then Some v else state_get key st.
Proof.
  induction st as [|[k0 v0] st IH]; simpl.
  - reflexivity.
  - destruct (str_eqb k0 k) eqn:E0; simpl.
    + apply str_eqb_eq in E0. subst k0. now destruct (str_eqb k key).
    + destruct (str_eqb k0 key) eqn:E1; [|exact IH].
      apply str_eqb_eq in E1. subst k0.
      now rewrite str_eqb_sym, E0.
Qed.

(** X15: after the initialisation loop a key reads as it did before when
    it was already in the session, and as its default when it was not and
    the loop knows it; no entry is overwritten. *)
Theorem X15_init_keeps_entries_and_fills_defaults :
  forall (st : session_state) (key : str),
    state_get key (init_session_state st)
    = match state_get key st with
      | Some v => Some v
      | None => state_get key session_defaults
      end.
Proof.
  intros st key. unfold init_session_state.
  generalize session_defaults as todo. intros todo. revert st.
  induction todo as [|[k d] todo IH]; intros st; cbn [init_loop].
  - simpl. now destruct (state_get key st).
  - rewrite IH. unfold state_has. cbn [state_get].
    destruct (state_get k st) as [v0|] eqn:G.
    + destruct (state_get key st) eqn:G'; [reflexivity|].
      destruct (str_eqb k key) eqn:E; [|reflexivity].
      apply str_eqb_eq in E. congruence.
    + rewrite state_get_set.
      destruct (str_eqb k key) eqn:E.
      * apply str_eqb_eq in E. subst k. now rewrite G.
      * reflexivity.
Qed.

Lemma init_loop_has_mono (key : str) :
  forall todo st,
    state_has key st = true -> state_has key (init_loop todo st) = true.
Proof.
  induction todo as [|[k d] todo IH]; intros st H; cbn [init_loop];
    [exact H|].
  apply IH. destruct (state_has k st); [exact H|].
  unfold state_has in *. rewrite state_get_set.
  now destruct (str_eqb k key).
Qed.

Lemma init_loop_has :
  forall todo st k d,
    In (k, d) todo -> state_has k (init_loop todo st) = true.
Proof.
  induction todo as [|[k0 d0] todo IH]; intros st k d I; [destruct I|].
  cbn [init_loop]. destruct I as [[= -> ->]|I]; [|now apply (IH _ k d)].
  apply init_loop_has_mono.
  destruct (state_has k st) eqn:H; [exact H|].
  unfold state_has. now rewrite state_get_set, str_eqb_refl.
Qed.

Lemma init_loop_fixed :
  forall todo st,
    (forall k d, In (k, d) todo -> state_has k st = true) ->
    init_loop todo st = st.
Proof.
  induction todo as [|[k d] todo IH]; intros st H; cbn [init_loop];
    [reflexivity|].
  rewrite (H k d) by now left. apply IH.
  intros k' d' I. apply (H k' d'). now right.
Qed.

(** X16: the initialisation is idempotent: on a rerun of the script, when
    the keys are in the session, the loop changes nothing. *)
Theorem X16_init_is_idempotent :
  forall st : session_state,
    init_session_state (init_session_state st) = init_session_state st.
Proof.
  intros st. unfold init_session_state at 1. apply init_loop_fixed.
  intros k d I. unfold init_session_state.
  exact (init_loop_has session_defaults st k d I).
Qed.

(** ** The model selector *)

(** X17: the selector assigns one of the models sold as premium
    (DeepSeek R1, Claude 3.5 Sonnet) only to a session that is premium
    already. *)
Theorem X17_premium_model_needs_premium_session :
  forall is_premium selected_label access_code unlock_pressed m,
    fst (fst (select_model is_premium selected_label access_code
                unlock_pressed))
    = Model_assigned (Some m) ->
    In m premium_models ->
    is_premium = true.
Proof.
  intros is_premium label code pressed m. unfold select_model.
  destruct (contains (py "[PREMIUM]") label) eqn:C.
  - unfold check_premium_access. destruct is_premium; [reflexivity|].
    destruct pressed; [destruct (str_eqb code _)|]; discriminate.
  - cbn [fst]. cbn [dict_getitem model_options].
    repeat match goal with
           | |- context [str_eqb ?k label] =>
               let E := fresh "E" in
               destruct (str_eqb k label) eqn:E;
               [apply str_eqb_eq in E; subst label|]
           end;
      try (vm_compute in C; discriminate C);
      try discriminate;
      intros [= <-] I; vm_compute in I;
      repeat (destruct I as [I|I]; [discriminate I|]); destruct I.
Qed.

Lemma X17_premium_model_needs_premium_session_witness : true = true.
Proof.
  apply (X17_premium_model_needs_premium_session true
           (icon_mask ++ py " [PREMIUM] Claude 3.5 Sonnet") [] false
           (py "anthropic/claude-3.5-sonnet")).
  - reflexivity.
  - right; left; reflexivity.
Defined.

(** X18: a session leaves the selector premium exactly when it was premium
    before or a premium label is selected, "Unlock Pro" is pressed and the
    licence field reads PRO-2025; a session that becomes premium this way
    is rerun before any model is assigned. No label offered by the selector
    raises a KeyError. *)
Theorem X18_unlock_needs_the_licence_key :
  forall is_premium selected_label access_code unlock_pressed,
    let r := select_model is_premium selected_label access_code
               unlock_pressed in
    (snd (fst r) = true <->
     is_premium = true \/
     (contains (py "[PREMIUM]") selected_label = true /\
      unlock_pressed = true /\ access_code = py "PRO-2025")) /\
    (is_premium = false -> snd (fst r) = true -> fst (fst r) = Script_rerun) /\
    (In selected_label (map fst model_options) ->
     forall k, fst (fst r) <> Key_error k).
Proof.
  intros is_premium label code pressed r. subst r. unfold select_model.
  split; [|split].
  - destruct (contains (py "[PREMIUM]") label) eqn:C; cbn [fst snd].
    + unfold check_premium_access. destruct is_premium; cbn [fst snd].
      * split; auto.
      * destruct pressed; [destruct (str_eqb code _) eqn:E|]; cbn [fst snd].
        -- apply str_eqb_eq in E. split; auto.
        -- split; [discriminate|]. intros [[=]|(_ & _ & ->)].
           now rewrite str_eqb_refl in E.
        -- split; [discriminate|]. now intros [[=]|(_ & [=] & _)].
    + split; [auto|]. now intros [H|([=] & _)].
  - intros -> . destruct (contains (py "[PREMIUM]") label); cbn [fst snd];
      [|discriminate].
    unfold check_premium_access.
    destruct pressed; [destruct (str_eqb code _)|]; cbn [fst snd];
      congruence.
  - intros I k. cbn [map fst model_options] in I.
    assert (D : exists m, dict_getitem model_options label = Ok m).
    { repeat (destruct I as [<-|I]; [eexists; reflexivity|]). destruct I. }
    destruct D as [m D]. rewrite D.
    destruct (contains (py "[PREMIUM]") label); [|discriminate].
    unfold check_premium_access. destruct is_premium; [discriminate|].
    destruct pressed; [destruct (str_eqb code _)|]; discriminate.
Qed.

Lemma X18_unlock_needs_the_licence_key_witness :
  fst (fst (select_model false (icon_unknown ++ py " [PREMIUM] DeepSeek R1")
              (py "PRO-2025") true))
  = Script_rerun.
Proof.
  apply (proj1 (proj2 (X18_unlock_needs_the_licence_key false
                         (icon_unknown ++ py " [PREMIUM] DeepSeek R1")
                         (py "PRO-2025") true))); reflexivity.
Defined.

(** ** The key tester *)

Lemma lstrip_nil_iff (s : str) : lstrip s = [] <-> whitespace_only s.
Proof.
  unfold lstrip, whitespace_only. induction s as [|c s IH]; simpl.
  - split; [constructor|reflexivity].
  - destruct (is_space c) eqn:E.
    + rewrite IH. split; [now constructor|now inversion 1].
    + split; [discriminate|]. inversion 1; congruence.
Qed.

Lemma strip_nil_iff (s : str) : strip s = [] <-> whitespace_only s.
Proof.
  rewrite <- lstrip_nil_iff. unfold strip.
  pose proof (lstrip_headed s) as H.
  destruct (lstrip s) as [|c l]; [now split|].
  simpl in H. unfold rstrip. simpl.
  rewrite (dropwhile_snoc is_space (rev l) c H), rev_app_distr. simpl.
  split; discriminate.
Qed.

(** X19: the tester gives up without calling the API exactly when the line
    typed is empty or whitespace only; whenever it does call, the key it
    passes is the typed line stripped of surrounding whitespace. *)
Theorem X19_blank_key_makes_no_call :
  forall c : Console,
    (test_api_key c = [Print_no_key] <-> whitespace_only (input_line c)) /\
    (forall key, In (Together_call key) (test_api_key c) ->
                 key = strip (input_line c) /\ key <> []).
Proof.
  intros c. rewrite <- strip_nil_iff. unfold test_api_key.
  destruct (strip (input_line c)) as [|k key'] eqn:S.
  - split; [now split|]. intros key [[=]|[]].
  - split.
    + destruct (together_chat c (k :: key')); split; discriminate.
    + intros key I.
      destruct (together_chat c (k :: key')) as [result|e]; simpl in I.
      * destruct I as [[=]|[[= <-]|[[=]|[[=]|[]]]]]. split; congruence.
      * destruct I as [[=]|[[= <-]|[[=]|[[=]|[I|[]]]]]];
          [split; congruence|].
        unfold failure_hint in I.
        destruct (_ || _) in I; [discriminate I|].
        destruct (contains _ _) in I; discriminate I.
Qed.

Lemma X19_blank_key_makes_no_call_witness :
  test_api_key (mkConsole (py "   ") (fun _ => Ok (Some (py "Hello"))))
  = [Print_no_key].
Proof.
  apply (proj2 (proj1 (X19_blank_key_makes_no_call
                         (mkConsole (py "   ")
                            (fun _ => Ok (Some (py "Hello"))))))).
  repeat constructor.
Defined.

(** ** The handler and the renderer together *)

Lemma chat_shows_no_display_warning w ss um dp df :
  ~ In Warning_no_results (events (chat_with_llm w ss um dp df)).
Proof.
  destruct (chat_with_llm_shape w ss um dp df)
    as [(e & _ & ->)|[(lines & r & evsl & _ & L & S)|(e & _ & ->)]].
  { simpl. intuition discriminate. }
  2:{ simpl. tauto. }
  assert (N : ~ In Warning_no_results evsl).
  { intros I.
    pose proof (retry_loop_events _ _ _ _ _ _ _ _ L) as F.
    rewrite Forall_forall in F. now specialize (F _ I). }
  destruct r as [[resp|]|e]; destruct S as [_ ->]; intros I;
    apply in_app_or in I as [I|I]; try (now apply N);
    try (simpl in I; intuition discriminate).
  destruct I as [[=]|I]. unfold code_interpret in I.
  destruct (run_code w _) as [ex|]; [destruct (error ex)|];
    simpl in I; intuition discriminate.
Qed.

(** X20: from the button, the renderer's own warning ("No visualization
    results to display.") is never shown: the handler calls the renderer
    with a non-empty result list only, and reports an empty or missing one
    itself. *)
Theorem X20_renderer_warning_unreachable_from_handler :
  forall a ss e2b_api_key query uploaded_file df,
    ~ In (Core Warning_no_results)
         (snd (analyze a ss e2b_api_key query uploaded_file df)).
Proof.
  intros a ss e2b query f df.
  assert (H : forall x,
             chat_with_llm (app_world a) ss query (py "./" ++ file_name f) df
             = x ->
             ~ In (Core Warning_no_results) (map Core (events x))).
  { intros x <- I. apply In_map_Core in I.
    exact (chat_shows_no_display_warning _ _ _ _ _ I). }
  analyze_cases a ss e2b query f df; cbn [snd];
    try (simpl; intuition discriminate).
  - intros I. cbn [app] in I. repeat (destruct I as [[=]|I]).
    apply in_app_or in I as [I|I]; [exact (H _ eq_refl I)|].
    destruct I as [[=]|I]. apply in_app_or in I as [I|[[=]|[]]].
    apply In_map_Core in I.
    destruct cr as [[|r rs]|]; try discriminate RT.
    cbn [display_visualization_results] in I. destruct I as [[=]|I].
    apply in_flat_map in I as (r' & _ & I). unfold display_result in I.
    destruct (attr_if_truthy (png r')) as [v|];
      [destruct (b64decode (app_world a) v) as [b|];
       [destruct (image_open (app_world a) b)|]|
       destruct (attr_if_truthy (data r'));
         [|destruct (attr_if_truthy (text r'))]];
      simpl in I; intuition discriminate.
  - intros I. cbn [app] in I. repeat (destruct I as [[=]|I]).
    apply in_app_or in I as [I|I]; [exact (H _ eq_refl I)|].
    simpl in I. intuition discriminate.
  - intros I. cbn [app] in I. repeat (destruct I as [[=]|I]).
    apply in_app_or in I as [I|I]; [exact (H _ eq_refl I)|].
    simpl in I. intuition discriminate.
Qed.
